(** * NILC at CWI 2018: the annotation-row parser and corpus loader of [data.py]

    A shallow embedding of [Instance] (row parser and tokenizer) and [Data]
    (corpus loader) together with the properties of the specification that
    concern them.

    Python values are modelled as follows.
    - A [str] is the list of its Unicode code points, so that indices and
      slices agree with Python's (the curly quotes and the ellipsis are one
      character each).
    - A Python [int] is a [Z]; a list index or a length is a [nat].
    - The dict [target] of the tokenizer is an association list that keeps
      insertion order, as Python's dicts do.
    - An exception is a value of [exn]; code that may raise returns a
      [result].
    - The builtins [str.lower], [int] and [float] are not code of this
      repository: they are the fields of the class [Builtins].
    - A numpy array is the list of the numeric values of its elements;
      [np.array] on a list of ints follows numpy's choice of a dtype, which
      rounds the values when it falls on float64. *)

From Stdlib Require Import String Ascii.
From Stdlib Require Import List Bool Arith ZArith NArith QArith Lia.
From Stdlib Require Import Sorting.Sorted Sorting.Permutation Sorting.Mergesort.
Import ListNotations.
Close Scope Q_scope.

Set Implicit Arguments.

(** ** Python strings *)

Module Py.

Definition str := list N.

Fixpoint str_eqb (a b : str) : bool :=
  match a, b with
  | [], [] => true
  | x :: a', y :: b' => N.eqb x y && str_eqb a' b'
  | _, _ => false
  end.

(** [x in l] for a list of strings [l]. *)
Definition str_in (x : str) (l : list str) : bool := existsb (str_eqb x) l.

(** [s[a:b]], [s[a:]] and [s[i]] for non-negative [a], [b], [i]; the source
    only ever slices with such indices.  [s[i]] is used in range only. *)
Definition slice (s : str) (a b : nat) : str := firstn (b - a) (skipn a s).
Definition slice_from (s : str) (a : nat) : str := skipn a s.
Definition char_at (s : str) (i : nat) : str := firstn 1 (skipn i s).

(** An ASCII literal as a [str]. *)
Definition lit (s : string) : str :=
  map (fun a => N_of_ascii a) (list_ascii_of_string s).

(** The characters of the source that are not ASCII. *)
Definition rdquo : str := [8221%N].   (* U+201D, right double quotation mark *)
Definition ldquo : str := [8220%N].   (* U+201C, left double quotation mark  *)
Definition hellip : str := [8230%N].  (* U+2026, horizontal ellipsis         *)

(** [s.split(sep)] for a one-character separator. *)
Fixpoint split_aux (sep : N) (cur : str) (s : str) : list str :=
  match s with
  | [] => [rev cur]
  | c :: s' =>
      if N.eqb c sep then rev cur :: split_aux sep [] s'
      else split_aux sep (c :: cur) s'
  end.

Definition split (sep : N) (s : str) : list str := split_aux sep [] s.

(** The line boundaries of [str.splitlines]. *)
Definition is_linebreak (c : N) : bool :=
  existsb (N.eqb c) [10; 11; 12; 13; 28; 29; 30; 133; 8232; 8233]%N.

(** [s.splitlines()]: a carriage return followed by a line feed is one
    boundary, and a final boundary opens no empty last line. *)
Fixpoint splitlines_aux (cur : str) (s : str) : list str :=
  match s with
  | [] => match cur with [] => [] | _ => [rev cur] end
  | c :: s' =>
      if is_linebreak c then
        match s' with
        | c' :: s'' =>
            if N.eqb c 13 && N.eqb c' 10
            then rev cur :: splitlines_aux [] s''
            else rev cur :: splitlines_aux [] s'
        | [] => rev cur :: splitlines_aux [] s'
        end
      else splitlines_aux (c :: cur) s'
  end.

Definition splitlines (s : str) : list str := splitlines_aux [] s.

(** [sep.join(l)], used to write rows and files down. *)
Fixpoint join (sep : str) (l : list str) : str :=
  match l with
  | [] => []
  | [x] => x
  | x :: l' => x ++ sep ++ join sep l'
  end.

(** A dict with [nat] keys: [d[k] = v] and [list(d.keys())]. *)
Fixpoint dict_set (V : Type) (d : list (nat * V)) (k : nat) (v : V)
  : list (nat * V) :=
  match d with
  | [] => [(k, v)]
  | (k', v') :: d' =>
      if Nat.eqb k' k then (k', v) :: d' else (k', v') :: dict_set d' k v
  end.

Definition dict_keys (V : Type) (d : list (nat * V)) : list nat := map fst d.

(** [i in range(a, b)] for an index [i] and Python ints [a], [b]. *)
Definition in_range (i : nat) (a b : Z) : bool :=
  (a <=? Z.of_nat i)%Z && (Z.of_nat i <? b)%Z.

(** The value of the float64 nearest to an integer, ties to even; the
    integers numpy converts are below 2^64 in absolute value. *)
Definition float64_of_int (z : Z) : Z :=
  let a := Z.abs z in
  if (a <? 2 ^ 53)%Z then z
  else
    let k := (Z.log2 a - 52)%Z in
    let q := Z.shiftr a k in
    let r := (a - Z.shiftl q k)%Z in
    let half := Z.shiftl 1 (k - 1) in
    let q' := if (half <? r)%Z || ((r =? half)%Z && Z.odd q)
              then (q + 1)%Z else q in
    (Z.sgn z * Z.shiftl q' k)%Z.

Definition in_int64 (z : Z) : bool := (- 2 ^ 63 <=? z)%Z && (z <? 2 ^ 63)%Z.
Definition in_uint64 (z : Z) : bool := (0 <=? z)%Z && (z <? 2 ^ 64)%Z.

(** [np.array(l)] for a list of Python ints, as the values of its elements:
    int64 when every value fits, else uint64 when every value fits, else
    float64 when every value fits one of the two, else an array of
    objects.  Only float64 changes values. *)
Definition np_array_int (l : list Z) : list Z :=
  if forallb in_int64 l then l
  else if forallb in_uint64 l then l
  else if forallb (fun z => in_int64 z || in_uint64 z) l
  then map float64_of_int l
  else l.

(** [np.array(l)] for a list of Python floats: a float64 array of the same
    values. *)
Definition np_array_float (A : Type) (l : list A) : list A := l.

(** Exceptions and results. *)
Inductive exn : Type :=
| IndexError
| ValueError
| TypeError
| AssertionError (line : list str)
| FileNotFoundError (path : str).

Inductive result (A : Type) : Type :=
| Ok (a : A)
| Raise (e : exn).

Arguments Ok {A} a.
Arguments Raise {A} e.

Definition bind (A B : Type) (m : result A) (k : A -> result B) : result B :=
  match m with
  | Ok a => k a
  | Raise e => Raise e
  end.

Fixpoint mapM (A B : Type) (f : A -> result B) (l : list A) : result (list B) :=
  match l with
  | [] => Ok []
  | a :: l' =>
      bind (f a) (fun b => bind (mapM f l') (fun bs => Ok (b :: bs)))
  end.

(** [for x in l: body], a statement that updates the state or raises. *)
Fixpoint forM (A S : Type) (body : S -> A -> result S) (l : list A) (s : S)
  : result S :=
  match l with
  | [] => Ok s
  | a :: l' => bind (body s a) (forM body l')
  end.

(** [l[k]] for a constant non-negative [k]. *)
Definition getitem (A : Type) (l : list A) (k : nat) : result A :=
  match nth_error l k with
  | Some x => Ok x
  | None => Raise IndexError
  end.

Definition of_option (A : Type) (e : exn) (o : option A) : result A :=
  match o with
  | Some x => Ok x
  | None => Raise e
  end.

End Py.

Import Py.

Notation "x <- m ;; k" := (bind m (fun x => k))
  (at level 61, m at next level, right associativity).

(** ** The builtins the source calls *)

Class Builtins : Type := {
  (** [s.lower()] *)
  lower : str -> str;
  (** [int(s)]; [None] when Python raises [ValueError] *)
  int_of_str : str -> option Z;
  (** the values of Python's floats *)
  float_t : Type;
  (** [float(s)]; [None] when Python raises [ValueError] *)
  float_of_str : str -> option float_t
}.

(** ** [class Instance] *)

Section InstanceModel.

Context {B : Builtins}.

Record Instance : Type := {
  hit_id : str;
  sentence : str;
  offset : Z * Z;
  target_chars : str;
  annotators : Z * Z;
  tokens : list str;
  target : list nat;
  label : option (Z * float_t);
  difficult : option (Z * Z)
}.

(** The local variables of [tokenize]. *)
Record scan : Type := {
  st_tokens : list str;
  st_target : list (nat * bool);
  st_start : nat
}.

Definition endings : list str :=
  [lit "?"; rdquo; [34%N]; lit "!"; lit ")"; lit "."].

Definition breaking : list str :=
  endings ++ [lit ","; lit ":"; lit ";"; lit "("; lit ")"; []; hellip;
              lit "["; lit "]"].

Definition quotes : list str := [[34%N]; ldquo].

(** The branch on the character at [i]: the new [tokens] and [start]. *)
Definition branch (s : str) (toks : list str) (start i : nat)
  : list str * nat :=
  let c := char_at s i in
  if str_eqb c (lit " ") then
    ((if match slice s start i with [] => false | _ => true end
      then toks ++ [lower (slice s start i)] else toks),
     i + 1)
  else if str_eqb c [39%N] then
    (toks ++ [lower (slice s start i)], i)
  else if str_in c breaking then
    ((if (0 <? Z.of_nat i - Z.of_nat start)%Z
      then toks ++ [lower (slice s start i)] else toks)
       ++ [lower (slice s i (i + 1))],
     i + 1)
  else if str_in c quotes then
    ((if (0 <=? Z.of_nat i - Z.of_nat start)%Z
      then toks ++ [lower (slice s i (i + 1))] else toks),
     i + 1)
  else (toks, start).

(** One iteration of the loop of [tokenize]. *)
Definition step (s : str) (off : Z * Z) (st : scan) (i : nat) : scan :=
  let tgt :=
    if in_range i (fst off) (snd off)
    then dict_set (st_target st) (length (st_tokens st)) true
    else st_target st in
  let '(toks, start) := branch s (st_tokens st) (st_start st) i in
  let toks :=
    if (Z.of_nat i =? Z.of_nat (length s) - 1)%Z
       && negb (str_in (char_at s i) endings)
    then toks ++ [lower (slice_from s start)] else toks in
  {| st_tokens := toks; st_target := tgt; st_start := start |}.

Definition scan_init : scan :=
  {| st_tokens := []; st_target := []; st_start := 0 |}.

Definition run (s : str) (off : Z * Z) (idx : list nat) (st : scan) : scan :=
  fold_left (step s off) idx st.

(** [Instance.tokenize], on the sentence and the offset of [self]. *)
Definition tokenize (s : str) (off : Z * Z) : list str * list nat :=
  let st := run s off (seq 0 (length s)) scan_init in
  (st_tokens st, dict_keys (st_target st)).

Definition to_int (f : str) : result Z := of_option ValueError (int_of_str f).
Definition to_float (f : str) : result float_t :=
  of_option ValueError (float_of_str f).

(** [Instance.__init__]; [row] is the parameter the source calls
    [sentence]. *)
Definition Instance_init (row : list str) (test : bool) : result Instance :=
  hit <- getitem row 0 ;;
  s <- getitem row 1 ;;
  f2 <- getitem row 2 ;; o0 <- to_int f2 ;;
  f3 <- getitem row 3 ;; o1 <- to_int f3 ;;
  tc <- getitem row 4 ;;
  f5 <- getitem row 5 ;; a0 <- to_int f5 ;;
  f6 <- getitem row 6 ;; a1 <- to_int f6 ;;
  let '(toks, tgt) := tokenize s (o0, o1) in
  let tgt := NatSort.sort tgt in
  if negb test then
    f9 <- getitem row 9 ;; l0 <- to_int f9 ;;
    f10 <- getitem row 10 ;; l1 <- to_float f10 ;;
    f7 <- getitem row 7 ;; d0 <- to_int f7 ;;
    f8 <- getitem row 8 ;; d1 <- to_int f8 ;;
    Ok {| hit_id := hit; sentence := s; offset := (o0, o1);
          target_chars := tc; annotators := (a0, a1);
          tokens := toks; target := tgt;
          label := Some (l0, l1); difficult := Some (d0, d1) |}
  else
    Ok {| hit_id := hit; sentence := s; offset := (o0, o1);
          target_chars := tc; annotators := (a0, a1);
          tokens := toks; target := tgt;
          label := None; difficult := None |}.

End InstanceModel.

(** ** [class Data] *)

Section DataModel.

Context {B : Builtins}.

(** The files the loader can see: the text [open(path).read()] returns, or
    [None] when the file cannot be opened. *)
Variable fs : str -> option str.

Record Data : Type := {
  instances : list Instance;
  y : list Z;
  y_prob : list float_t;
  test : bool
}.

(** [[line.split('\t') for line in fp.read().splitlines()]] *)
Definition read_lines (content : str) : list (list str) :=
  map (split 9) (splitlines content).

(** The two assertions on the number of fields. *)
Definition check_line (is_test : bool) (line : list str) : result unit :=
  if negb is_test then
    if length line =? 11 then Ok tt else Raise (AssertionError line)
  else
    if length line =? 7 then Ok tt else Raise (AssertionError line).

(** The body of the loop over [datasets]: the state is [self.instances]. *)
Definition load_file (is_test : bool) (insts : list Instance) (dataset : str)
  : result (list Instance) :=
  content <- of_option (FileNotFoundError dataset) (fs dataset) ;;
  let lines := read_lines content in
  _ <- forM (fun (_ : unit) line => check_line is_test line) lines tt ;;
  forM (fun acc line => i <- Instance_init line is_test ;; Ok (acc ++ [i]))
       lines insts.

Definition label_binary (i : Instance) : result Z :=
  match label i with
  | Some l => Ok (fst l)
  | None => Raise TypeError
  end.

Definition label_prob (i : Instance) : result float_t :=
  match label i with
  | Some l => Ok (snd l)
  | None => Raise TypeError
  end.

(** [Data.load_data] *)
Definition load_data (self : Data) (datasets : list str) : result Data :=
  insts <- forM (load_file (test self)) datasets (instances self) ;;
  if negb (test self) then
    ys <- mapM label_binary insts ;;
    ps <- mapM label_prob insts ;;
    Ok {| instances := insts; y := np_array_int ys;
          y_prob := np_array_float ps; test := test self |}
  else
    Ok {| instances := insts; y := y self; y_prob := y_prob self;
          test := test self |}.

(** [Data.__init__] *)
Definition Data_init (datasets : list str) (is_test : bool) : result Data :=
  load_data {| instances := []; y := []; y_prob := []; test := is_test |}
            datasets.

End DataModel.

(** ** Builtins for the scenarios

    The scenarios of the specification use ASCII letters, plain decimal
    integers and a plain decimal fraction.  On such strings the builtins are
    the following functions; a float is represented by the exact value of
    its decimal literal. *)

Module Scenario.

Definition lower_char (c : N) : N :=
  if (65 <=? c)%N && (c <=? 90)%N then (c + 32)%N else c.

Definition ascii_lower (s : str) : str := map lower_char s.

Definition digit (c : N) : option Z :=
  if (48 <=? c)%N && (c <=? 57)%N then Some (Z.of_N (c - 48)) else None.

Fixpoint digits (acc : Z) (s : str) : option Z :=
  match s with
  | [] => Some acc
  | c :: s' =>
      match digit c with
      | Some d => digits (10 * acc + d)%Z s'
      | None => None
      end
  end.

(** An optional sign and one or more digits. *)
Definition dec_int (s : str) : option Z :=
  match s with
  | [] => None
  | c :: r =>
      if N.eqb c 45 then
        match r with [] => None | _ => option_map Z.opp (digits 0 r) end
      else if N.eqb c 43 then
        match r with [] => None | _ => digits 0 r end
      else digits 0 s
  end.

(** Digits, and optionally a point and more digits. *)
Definition dec_float (s : str) : option Q :=
  match split 46 s with
  | [ip] =>
      match ip with
      | [] => None
      | _ => option_map (fun n => Qmake n 1) (digits 0 ip)
      end
  | [ip; fp] =>
      match ip, digits 0 (ip ++ fp) with
      | _ :: _, Some n => Some (Qmake n (Pos.pow 10 (Pos.of_nat (length fp))))
      | _, _ => None
      end
  | _ => None
  end.

Definition builtins : Builtins :=
  {| lower := ascii_lower; int_of_str := dec_int;
     float_t := Q; float_of_str := dec_float |}.

(** The row of the labeled scenario, and the instance it describes. *)
Definition row_cat : list str :=
  [lit "H1"; lit "The cat's toy."; lit "4"; lit "9"; lit "cat's ";
   lit "5"; lit "2"; lit "1"; lit "0"; lit "1"; lit "0.33"].

Definition inst_cat : @Instance builtins :=
  {| hit_id := lit "H1"; sentence := lit "The cat's toy.";
     offset := (4, 9)%Z; target_chars := lit "cat's ";
     annotators := (5, 2)%Z;
     tokens := [lit "the"; lit "cat"; lit "'s"; lit "toy"; lit "."];
     target := [1; 2];
     label := Some (1%Z, Qmake 33 100 : @float_t builtins);
     difficult := Some (1, 0)%Z |}.

(** The same row with an empty span, with the offsets exchanged, and with
    its last field missing. *)
Definition row_empty_span : list str :=
  [lit "H1"; lit "The cat's toy."; lit "4"; lit "4"; [];
   lit "5"; lit "2"; lit "0"; lit "0"; lit "0"; lit "0.0"].

Definition row_exchanged : list str :=
  [lit "H1"; lit "The cat's toy."; lit "9"; lit "4"; lit "cat's ";
   lit "5"; lit "2"; lit "1"; lit "0"; lit "1"; lit "0.33"].

Definition row_short : list str := removelast row_cat.

Definition inst_empty_span : @Instance builtins :=
  {| hit_id := lit "H1"; sentence := lit "The cat's toy.";
     offset := (4, 4)%Z; target_chars := [];
     annotators := (5, 2)%Z;
     tokens := [lit "the"; lit "cat"; lit "'s"; lit "toy"; lit "."];
     target := [];
     label := Some (0%Z, Qmake 0 10 : @float_t builtins);
     difficult := Some (0, 0)%Z |}.

Definition inst_exchanged : @Instance builtins :=
  {| hit_id := lit "H1"; sentence := lit "The cat's toy.";
     offset := (9, 4)%Z; target_chars := lit "cat's ";
     annotators := (5, 2)%Z;
     tokens := [lit "the"; lit "cat"; lit "'s"; lit "toy"; lit "."];
     target := [];
     label := Some (1%Z, Qmake 33 100 : @float_t builtins);
     difficult := Some (1, 0)%Z |}.

(** A second labeled row. *)
Definition row_dog : list str :=
  [lit "H2"; lit "A dog."; lit "2"; lit "5"; lit "dog";
   lit "3"; lit "1"; lit "0"; lit "0"; lit "0"; lit "0.0"].

(** A file of rows: tabs between fields, a line feed after each row. *)
Definition file_of (rows : list (list str)) : str :=
  concat (map (fun r => join [9%N] r ++ [10%N]) rows).

(** Two file systems that hold the same three files and differ on a
    fourth path. *)
Definition files (p : str) : option str :=
  if str_eqb p (lit "news.tsv") then Some (file_of [row_cat])
  else if str_eqb p (lit "wiki.tsv") then Some (file_of [row_dog])
  else if str_eqb p (lit "short.tsv") then Some (file_of [row_short])
  else None.

Definition files' (p : str) : option str :=
  if str_eqb p (lit "other.tsv") then Some (file_of [row_short])
  else files p.

End Scenario.

(** ** Vocabulary of the properties *)

Section Vocabulary.

Context {B : Builtins}.

(** The invariant of the loop: the keys are distinct and none exceeds the
    number of tokens emitted so far. *)
Definition keys_bounded (st : scan) : Prop :=
  NoDup (dict_keys (st_target st)) /\
  Forall (fun k => k <= length (st_tokens st)) (dict_keys (st_target st)).

(** The fields [int] or [float] is applied to, by mode. *)
Definition numeric_fields (is_test : bool) : list nat :=
  if is_test then [2; 3; 5; 6] else [2; 3; 5; 6; 7; 8; 9; 10].

Definition parses (k : nat) (f : str) : bool :=
  if k =? 10
  then match float_of_str f with Some _ => true | None => false end
  else match int_of_str f with Some _ => true | None => false end.

Definition expected_fields (is_test : bool) : nat :=
  if is_test then 7 else 11.

(** The exceptions the specification calls a format error. *)
Definition format_error (e : exn) : Prop :=
  e = ValueError \/ exists line, e = AssertionError line.

(** The listed files can all be opened; [contents] are their texts. *)
Definition readable (fs : str -> option str) (datasets contents : list str)
  : Prop :=
  Forall2 (fun p c => fs p = Some c) datasets contents.

(** All the rows of the listed files, file by file and line by line. *)
Definition all_lines (contents : list str) : list (list str) :=
  concat (map read_lines contents).

(** A row the loader must reject: a wrong number of fields, or a numeric
    field that does not parse. *)
Definition malformed (is_test : bool) (line : list str) : Prop :=
  length line <> expected_fields is_test \/
  exists k f, In k (numeric_fields is_test) /\ nth_error line k = Some f /\
              parses k f = false.

End Vocabulary.

(** ** The rest of [Instance] and [Data] *)

Section Further.

Context {B : Builtins}.

(** [[self.tokens[i] for i in self.target]], the comprehension with which
    [Instance.__str__] shows the target tokens. *)
Definition target_tokens (i : Instance) : result (list str) :=
  mapM (getitem (tokens i)) (target i).

(** [set(l)] for a list of strings, as the list of its distinct elements,
    and [len(set(l))]. *)
Fixpoint distinct (l : list str) : list str :=
  match l with
  | [] => []
  | x :: l' => if str_in x l' then distinct l' else x :: distinct l'
  end.

Definition set_len (l : list str) : nat := length (distinct l).

(** What [Data.statistics] computes from [self.instances]: the number of
    instances, [unique_insts], [unique_targets], [sents_len] and
    [tokens_len].  The means and standard deviations numpy derives from the
    two lists, and the printing, are left out. *)
Record Counts : Type := {
  n_instances : nat;
  unique_insts : nat;
  unique_targets : nat;
  sents_len : list nat;
  tokens_len : list nat
}.

Definition statistics (self : Data) : Counts :=
  {| n_instances := length (instances self);
     unique_insts := set_len (map hit_id (instances self));
     unique_targets := set_len (map target_chars (instances self));
     sents_len := map (fun i => length (sentence i)) (instances self);
     tokens_len := map (fun i => length (tokens i)) (instances self) |}.

(** An instance without its label and difficulty counts. *)
Definition erase_labels (i : Instance) : Instance :=
  {| hit_id := hit_id i; sentence := sentence i; offset := offset i;
     target_chars := target_chars i; annotators := annotators i;
     tokens := tokens i; target := target i;
     label := None; difficult := None |}.

(** The characters on which a branch of the tokenizer acts. *)
Definition is_delimiter (c : N) : bool :=
  str_eqb [c] (lit " ") || str_eqb [c] [39%N] || str_in [c] breaking
  || str_in [c] quotes.

(** A sentence without its spaces. *)
Definition nospace (s : str) : str := filter (fun c => negb (N.eqb c 32)) s.

(** The span [off] holds a character position of the sentence. *)
Definition span_meets (s : str) (off : Z * Z) : Prop :=
  exists i, i < length s /\ (fst off <= Z.of_nat i < snd off)%Z.

(** The keys recorded so far are in ascending order and none exceeds the
    number of tokens emitted so far. *)
Definition keys_ascending (st : scan) : Prop :=
  StronglySorted lt (dict_keys (st_target st)) /\
  Forall (fun k => k <= length (st_tokens st)) (dict_keys (st_target st)).

(** The tokens emitted before position [i] are the lowercased [pieces] of
    the sentence, which with the pending text spell out its first [i]
    characters less the spaces. *)
Definition pieces_upto (s : str) (i : nat) (toks : list str) (start : nat)
  : Prop :=
  start <= i /\
  exists pieces, toks = map lower pieces /\
                 concat pieces ++ slice s start i = nospace (firstn i s).

(** The first line of a file that the assertion rejects. *)
Fixpoint first_miscounted (is_test : bool) (lines : list (list str))
  : option (list str) :=
  match lines with
  | [] => None
  | l :: lines' =>
      if length l =? expected_fields is_test
      then first_miscounted is_test lines' else Some l
  end.

End Further.

(** ** Files for the further properties *)

Module More.

(** The row of the scenario as a test-mode row, and with a start offset
    that is no number. *)
Definition row_test : list str := firstn 7 Scenario.row_cat.

Definition row_bad_number : list str :=
  [lit "H1"; lit "The cat's toy."; lit "x"; lit "9"; lit "cat's ";
   lit "5"; lit "2"; lit "1"; lit "0"; lit "1"; lit "0.33"].

(** Two rows whose binary labels are -1 and 2^63 + 1. *)
Definition row_minus : list str :=
  [lit "H3"; lit "A dog."; lit "2"; lit "5"; lit "dog";
   lit "3"; lit "1"; lit "0"; lit "0"; lit "-1"; lit "0.0"].

Definition row_big : list str :=
  [lit "H4"; lit "A dog."; lit "2"; lit "5"; lit "dog";
   lit "3"; lit "1"; lit "0"; lit "0"; lit "9223372036854775809"; lit "0.0"].

(** A test-mode file, a file with an empty line between two rows, a file
    whose first row has a bad number and whose second row is short, and a
    file of the two rows above. *)
Definition files (p : str) : option str :=
  if str_eqb p (lit "big.tsv") then Some (Scenario.file_of [row_minus; row_big])
  else if str_eqb p (lit "test.tsv") then Some (Scenario.file_of [row_test])
  else if str_eqb p (lit "blank.tsv")
  then Some (Scenario.file_of [Scenario.row_cat; []; Scenario.row_dog])
  else if str_eqb p (lit "mixed.tsv")
  then Some (Scenario.file_of [row_bad_number; Scenario.row_short])
  else Scenario.files p.

End More.

(** * Properties *)

(** ** Strings, dicts and results *)

Lemma str_eqb_eq (a b : str) : str_eqb a b = true -> a = b.
Proof.
  revert b; induction a as [|x a IH]; intros [|y b]; simpl; try discriminate.
  - reflexivity.
  - intros H. apply andb_true_iff in H. destruct H as [Hx Hab].
    apply N.eqb_eq in Hx. f_equal; auto.
Qed.

Lemma str_in_In (x : str) (l : list str) : str_in x l = true -> In x l.
Proof.
  unfold str_in. intros H. apply existsb_exists in H.
  destruct H as [z [Hz Hx]]. apply str_eqb_eq in Hx. now subst.
Qed.

Lemma dict_set_keys (V : Type) (d : list (nat * V)) (k : nat) (v : V) (x : nat) :
  In x (dict_keys (dict_set d k v)) <-> In x (dict_keys d) \/ x = k.
Proof.
  unfold dict_keys. induction d as [|[k' v'] d IH]; simpl.
  - intuition.
  - destruct (Nat.eqb_spec k' k) as [->|Hne]; simpl.
    + intuition.
    + rewrite IH. intuition.
Qed.

Lemma dict_set_NoDup (V : Type) (d : list (nat * V)) (k : nat) (v : V) :
  NoDup (dict_keys d) -> NoDup (dict_keys (dict_set d k v)).
Proof.
  induction d as [|[k' v'] d IH]; simpl; intros H.
  - constructor; [intros [] | constructor].
  - inversion H as [|? ? Hnin Hd]; subst.
    destruct (Nat.eqb_spec k' k) as [->|Hne]; simpl.
    + constructor; assumption.
    + constructor; [|apply IH; assumption].
      intros Hin. apply (dict_set_keys d k v k') in Hin.
      destruct Hin as [Hin | Heq]; [exact (Hnin Hin) | exact (Hne Heq)].
Qed.

Lemma np_array_int_length (l : list Z) :
  length (np_array_int l) = length l.
Proof.
  unfold np_array_int.
  repeat match goal with
         | |- context [if ?b then _ else _] => destruct b
         end; try reflexivity.
  apply length_map.
Qed.

Lemma np_array_int_exact (l : list Z) :
  Forall (fun z => - 2 ^ 63 <= z < 2 ^ 63)%Z l -> np_array_int l = l.
Proof.
  intros H. unfold np_array_int.
  replace (forallb in_int64 l) with true; [reflexivity|].
  symmetry. apply forallb_forall. rewrite Forall_forall in H.
  intros z Hz. specialize (H z Hz). unfold in_int64.
  apply andb_true_iff. split; [apply Z.leb_le | apply Z.ltb_lt]; lia.
Qed.

Lemma natleb_le (x y : nat) : is_true (NatOrder.leb x y) <-> x <= y.
Proof.
  unfold is_true. revert y; induction x as [|x IH]; intros [|y]; simpl.
  - intuition.
  - intuition lia.
  - split; [discriminate | lia].
  - rewrite IH. lia.
Qed.

Lemma sorted_NoDup_strict (r : list nat) :
  StronglySorted (fun x y => is_true (NatOrder.leb x y)) r ->
  NoDup r -> StronglySorted lt r.
Proof.
  induction 1 as [|a r Hr IH Hall]; intros Hnd; constructor.
  - apply IH. now inversion Hnd.
  - inversion Hnd as [|? ? Hnin _]; subst.
    rewrite Forall_forall in *. intros x Hx.
    specialize (Hall x Hx). apply natleb_le in Hall.
    assert (x <> a) by (intros ->; exact (Hnin Hx)). lia.
Qed.

(** Sorting a duplicate-free list of indices gives a strictly increasing
    list with the same elements. *)
Lemma sort_strict (l : list nat) :
  NoDup l ->
  StronglySorted lt (NatSort.sort l) /\
  (forall x, In x (NatSort.sort l) <-> In x l).
Proof.
  intros Hnd.
  assert (Hperm : Permutation l (NatSort.sort l)) by apply NatSort.Permuted_sort.
  split.
  - apply sorted_NoDup_strict.
    + apply NatSort.StronglySorted_sort.
      intros a b c Hab Hbc. apply natleb_le in Hab, Hbc. apply natleb_le. lia.
    + eapply Permutation_NoDup; eassumption.
  - intros x; split; intros Hx.
    + eapply Permutation_in; [apply Permutation_sym|]; eassumption.
    + eapply Permutation_in; eassumption.
Qed.

(** ** The tokenizer *)

Section TokenizerFacts.

Context {B : Builtins}.

Lemma endings_breaking (c : str) :
  str_in c endings = true -> str_in c breaking = true.
Proof.
  unfold breaking, str_in. intros H. rewrite existsb_app, H. reflexivity.
Qed.

Lemma endings_not_space (c : str) :
  str_in c endings = true -> str_eqb c (lit " ") = false.
Proof.
  intros H. destruct (str_eqb c (lit " ")) eqn:E; [|reflexivity].
  apply str_eqb_eq in E. subst c. discriminate H.
Qed.

Lemma endings_not_apostrophe (c : str) :
  str_in c endings = true -> str_eqb c [39%N] = false.
Proof.
  intros H. destruct (str_eqb c [39%N]) eqn:E; [|reflexivity].
  apply str_eqb_eq in E. subst c. discriminate H.
Qed.

(** No branch removes a token. *)
Lemma branch_mono (s : str) (toks : list str) (start i : nat) :
  length toks <= length (fst (branch s toks start i)).
Proof.
  unfold branch.
  repeat match goal with
         | |- context [if ?b then _ else _] => destruct b
         end; simpl; repeat rewrite length_app; simpl; lia.
Qed.

(** A sentence-ending character is emitted as a token. *)
Lemma branch_ending_grows (s : str) (toks : list str) (start i : nat) :
  str_in (char_at s i) endings = true ->
  length toks < length (fst (branch s toks start i)).
Proof.
  intros H. unfold branch.
  rewrite (endings_not_space _ H), (endings_not_apostrophe _ H),
    (endings_breaking _ H).
  simpl. rewrite length_app. simpl.
  destruct (0 <? Z.of_nat i - Z.of_nat start)%Z;
    repeat rewrite length_app; simpl; lia.
Qed.

Lemma step_mono (s : str) (off : Z * Z) (st : scan) (i : nat) :
  length (st_tokens st) <= length (st_tokens (step s off st i)).
Proof.
  unfold step.
  pose proof (branch_mono s (st_tokens st) (st_start st) i) as Hb.
  destruct (branch s (st_tokens st) (st_start st) i) as [toks start].
  simpl in *.
  destruct (_ && _); simpl; repeat rewrite length_app; simpl; lia.
Qed.

(** The iteration on the last character always emits a token. *)
Lemma step_last_grows (s : str) (off : Z * Z) (st : scan) (i : nat) :
  S i = length s ->
  length (st_tokens st) < length (st_tokens (step s off st i)).
Proof.
  intros Hi. unfold step.
  pose proof (branch_mono s (st_tokens st) (st_start st) i) as Hb.
  destruct (str_in (char_at s i) endings) eqn:He.
  - pose proof (branch_ending_grows s (st_tokens st) (st_start st) i He) as Hg.
    destruct (branch s (st_tokens st) (st_start st) i) as [toks start].
    simpl in *. rewrite andb_false_r. simpl. lia.
  - destruct (branch s (st_tokens st) (st_start st) i) as [toks start].
    simpl in *.
    replace (Z.of_nat i =? Z.of_nat (length s) - 1)%Z with true
      by (symmetry; apply Z.eqb_eq; lia).
    simpl. rewrite length_app. simpl. lia.
Qed.

(** The keys recorded in [target] after an iteration. *)
Lemma step_keys (s : str) (off : Z * Z) (st : scan) (i : nat) (k : nat) :
  In k (dict_keys (st_target (step s off st i))) ->
  In k (dict_keys (st_target st)) \/ k = length (st_tokens st).
Proof.
  unfold step.
  destruct (branch s (st_tokens st) (st_start st) i) as [toks start].
  simpl. destruct (in_range i (fst off) (snd off)).
  - intros H. apply dict_set_keys in H. exact H.
  - auto.
Qed.

Lemma step_NoDup (s : str) (off : Z * Z) (st : scan) (i : nat) :
  NoDup (dict_keys (st_target st)) ->
  NoDup (dict_keys (st_target (step s off st i))).
Proof.
  unfold step.
  destruct (branch s (st_tokens st) (st_start st) i) as [toks start].
  simpl. destruct (in_range i (fst off) (snd off)); auto.
  apply dict_set_NoDup.
Qed.

Lemma step_keys_bounded (s : str) (off : Z * Z) (st : scan) (i : nat) :
  keys_bounded st -> keys_bounded (step s off st i).
Proof.
  intros [Hnd Hb]. split; [now apply step_NoDup|].
  rewrite Forall_forall in *. intros k Hk.
  pose proof (step_mono s off st i).
  apply step_keys in Hk. destruct Hk as [Hk | ->]; [|lia].
  specialize (Hb k Hk). lia.
Qed.

Lemma run_keys_bounded (s : str) (off : Z * Z) (idx : list nat) (st : scan) :
  keys_bounded st -> keys_bounded (run s off idx st).
Proof.
  unfold run. revert st.
  induction idx as [|i idx IH]; simpl; intros st H; [assumption|].
  apply IH. now apply step_keys_bounded.
Qed.

(** After the whole scan every key is an index of an emitted token. *)
Lemma tokenize_keys (s : str) (off : Z * Z) :
  NoDup (snd (tokenize s off)) /\
  Forall (fun k => k < length (fst (tokenize s off))) (snd (tokenize s off)).
Proof.
  unfold tokenize. simpl.
  destruct (length s) as [|n] eqn:Hn.
  - simpl. split; constructor.
  - rewrite seq_S. simpl. unfold run. rewrite fold_left_app. simpl.
    fold (run s off (seq 0 n) scan_init).
    assert (Hinv : keys_bounded (run s off (seq 0 n) scan_init)).
    { apply run_keys_bounded. split; simpl; constructor. }
    set (st := run s off (seq 0 n) scan_init) in *.
    destruct Hinv as [Hnd Hb]. split; [now apply step_NoDup|].
    rewrite Forall_forall in *. intros k Hk.
    assert (Hlast : length (st_tokens st) < length (st_tokens (step s off st n)))
      by (apply step_last_grows; lia).
    apply step_keys in Hk. destruct Hk as [Hk | ->]; [|lia].
    specialize (Hb k Hk). lia.
Qed.

(** An empty span records nothing. *)
Lemma step_empty_span (s : str) (a b : Z) (st : scan) (i : nat) :
  (b <= a)%Z -> st_target (step s (a, b) st i) = st_target st.
Proof.
  intros Hab. unfold step.
  destruct (branch s (st_tokens st) (st_start st) i) as [toks start].
  simpl. unfold in_range.
  destruct (a <=? Z.of_nat i)%Z eqn:E1; simpl; [|reflexivity].
  destruct (Z.of_nat i <? b)%Z eqn:E2; simpl; [|reflexivity].
  apply Z.leb_le in E1. apply Z.ltb_lt in E2. lia.
Qed.

Lemma run_empty_span (s : str) (a b : Z) (idx : list nat) (st : scan) :
  (b <= a)%Z -> st_target (run s (a, b) idx st) = st_target st.
Proof.
  intros Hab. unfold run. revert st.
  induction idx as [|i idx IH]; simpl; intros st; [reflexivity|].
  rewrite IH. now apply step_empty_span.
Qed.

Lemma tokenize_empty_span (s : str) (a b : Z) :
  (b <= a)%Z -> snd (tokenize s (a, b)) = [].
Proof.
  intros Hab. unfold tokenize. simpl.
  rewrite run_empty_span by assumption. reflexivity.
Qed.

End TokenizerFacts.

(** ** The row parser *)

Section InstanceFacts.

Context {B : Builtins}.

(** What a constructed instance holds, read off the row. *)
Lemma Instance_init_inv (row : list str) (is_test : bool) (inst : Instance) :
  Instance_init row is_test = Ok inst ->
  (exists f2 f3 f5 f6,
     nth_error row 0 = Some (hit_id inst) /\
     nth_error row 1 = Some (sentence inst) /\
     nth_error row 2 = Some f2 /\ int_of_str f2 = Some (fst (offset inst)) /\
     nth_error row 3 = Some f3 /\ int_of_str f3 = Some (snd (offset inst)) /\
     nth_error row 4 = Some (target_chars inst) /\
     nth_error row 5 = Some f5 /\ int_of_str f5 = Some (fst (annotators inst)) /\
     nth_error row 6 = Some f6 /\ int_of_str f6 = Some (snd (annotators inst))) /\
  tokens inst = fst (tokenize (sentence inst) (offset inst)) /\
  target inst = NatSort.sort (snd (tokenize (sentence inst) (offset inst))) /\
  (if is_test then label inst = None /\ difficult inst = None
   else exists f7 f8 f9 f10 d0 d1 l0 l1,
       nth_error row 7 = Some f7 /\ int_of_str f7 = Some d0 /\
       nth_error row 8 = Some f8 /\ int_of_str f8 = Some d1 /\
       nth_error row 9 = Some f9 /\ int_of_str f9 = Some l0 /\
       nth_error row 10 = Some f10 /\ float_of_str f10 = Some l1 /\
       label inst = Some (l0, l1) /\ difficult inst = Some (d0, d1)).
Proof.
  intros H. unfold Instance_init, getitem, to_int, to_float, of_option in H.
  destruct row as [|r0 [|r1 [|r2 [|r3 [|r4 [|r5 [|r6 rest]]]]]]];
    simpl in H;
    try solve [repeat match type of H with
                      | context [int_of_str ?f] =>
                          destruct (int_of_str f); simpl in H
                      end; discriminate H].
  destruct (int_of_str r2) as [a|] eqn:I2; simpl in H; [|discriminate H].
  destruct (int_of_str r3) as [b|] eqn:I3; simpl in H; [|discriminate H].
  destruct (int_of_str r5) as [n0|] eqn:I5; simpl in H; [|discriminate H].
  destruct (int_of_str r6) as [n1|] eqn:I6; simpl in H; [|discriminate H].
  destruct is_test; simpl in H.
  - injection H as <-.
    cbn [hit_id sentence offset target_chars annotators tokens target label
           difficult fst snd].
    split; [exists r2, r3, r5, r6; repeat split; assumption|].
    repeat split.
  - destruct rest as [|r7 [|r8 [|r9 [|r10 rest]]]]; simpl in H;
      try solve [repeat match type of H with
                        | context [int_of_str ?f] =>
                            destruct (int_of_str f); simpl in H
                        | context [float_of_str ?f] =>
                            destruct (float_of_str f); simpl in H
                        end; discriminate H].
    destruct (int_of_str r9) as [l0|] eqn:I9; simpl in H; [|discriminate H].
    destruct (float_of_str r10) as [l1|] eqn:I10; simpl in H; [|discriminate H].
    destruct (int_of_str r7) as [d0|] eqn:I7; simpl in H; [|discriminate H].
    destruct (int_of_str r8) as [d1|] eqn:I8; simpl in H; [|discriminate H].
    injection H as <-.
    cbn [hit_id sentence offset target_chars annotators tokens target label
           difficult fst snd].
    split; [exists r2, r3, r5, r6; repeat split; assumption|].
    repeat split.
    exists r7, r8, r9, r10, d0, d1, l0, l1. repeat split; assumption.
Qed.

Lemma Instance_init_parses (row : list str) (is_test : bool) (inst : Instance) :
  Instance_init row is_test = Ok inst ->
  forall k f, In k (numeric_fields is_test) -> nth_error row k = Some f ->
              parses k f = true.
Proof.
  intros H k f Hk Hf. apply Instance_init_inv in H.
  destruct H as [(f2 & f3 & f5 & f6 & _ & _ & H2 & I2 & H3 & I3 & _ & H5 & I5
                  & H6 & I6) [_ [_ Hl]]].
  assert (Hcommon : In k [2; 3; 5; 6] -> parses k f = true).
  { simpl. intros [<-|[<-|[<-|[<-|[]]]]]; unfold parses; simpl;
      match goal with
      | H1 : nth_error row ?n = Some f, H2 : nth_error row ?n = Some ?g |- _ =>
          rewrite H1 in H2; injection H2 as <-
      end;
      match goal with
      | H : int_of_str f = Some _ |- _ => rewrite H; reflexivity
      end. }
  destruct is_test; simpl in Hk.
  - apply Hcommon. simpl. tauto.
  - destruct Hl as (f7 & f8 & f9 & f10 & d0 & d1 & l0 & l1 & H7 & I7 & H8 & I8
                    & H9 & I9 & H10 & I10 & _).
    destruct Hk as [<-|[<-|[<-|[<-|Hk]]]];
      try (apply Hcommon; simpl; tauto).
    destruct Hk as [<-|[<-|[<-|[<-|[]]]]]; unfold parses; simpl;
      match goal with
      | H1 : nth_error row ?n = Some f, H2 : nth_error row ?n = Some ?g |- _ =>
          rewrite H1 in H2; injection H2 as <-
      end;
      match goal with
      | H : _ f = Some _ |- _ => rewrite H; reflexivity
      end.
Qed.

(** On a row with the number of fields of its mode the constructor can only
    fail in [int] or [float]. *)
Lemma Instance_init_counted (row : list str) (is_test : bool) :
  length row = expected_fields is_test ->
  (exists inst, Instance_init row is_test = Ok inst) \/
  Instance_init row is_test = Raise ValueError.
Proof.
  intros Hlen.
  assert (Hrow : exists r0 r1 r2 r3 r4 r5 r6 rest,
             row = r0 :: r1 :: r2 :: r3 :: r4 :: r5 :: r6 :: rest /\
             length rest = if is_test then 0 else 4).
  { destruct is_test; simpl in Hlen;
      do 7 (destruct row as [|? row]; [discriminate Hlen|]);
      do 8 eexists; split; try reflexivity; simpl in *; lia. }
  destruct Hrow as (r0 & r1 & r2 & r3 & r4 & r5 & r6 & rest & -> & Hrest).
  unfold Instance_init, getitem, to_int, to_float, of_option. simpl.
  destruct (int_of_str r2); simpl; [|now right].
  destruct (int_of_str r3); simpl; [|now right].
  destruct (int_of_str r5); simpl; [|now right].
  destruct (int_of_str r6); simpl; [|now right].
  destruct (tokenize r1 (z, z0)) as [toks tgt].
  destruct is_test; simpl.
  - left. eexists. reflexivity.
  - do 4 (destruct rest as [|? rest]; [discriminate Hrest|]). simpl.
    destruct (int_of_str s1); simpl; [|now right].
    destruct (float_of_str s2); simpl; [|now right].
    destruct (int_of_str s); simpl; [|now right].
    destruct (int_of_str s0); simpl; [|now right].
    left. eexists. reflexivity.
Qed.

Lemma Instance_init_label (row : list str) (inst : Instance) :
  Instance_init row false = Ok inst -> label inst <> None.
Proof.
  intros H. apply Instance_init_inv in H.
  destruct H as [_ [_ [_ (f7 & f8 & f9 & f10 & d0 & d1 & l0 & l1 & H)]]].
  decompose [and] H. congruence.
Qed.

End InstanceFacts.

(** ** Loops that may raise *)

Lemma mapM_Ok (A R : Type) (f : A -> result R) (l : list A) (l' : list R) :
  mapM f l = Ok l' <-> Forall2 (fun a b => f a = Ok b) l l'.
Proof.
  revert l'; induction l as [|a l IH]; simpl; intros l'.
  - split; intros H.
    + injection H as <-. constructor.
    + inversion H. reflexivity.
  - split; intros H.
    + destruct (f a) as [b|e] eqn:Ha; simpl in H; [|discriminate H].
      destruct (mapM f l) as [bs|e] eqn:Hl; simpl in H; [|discriminate H].
      injection H as <-. constructor; [assumption | now apply IH].
    + inversion H as [|? b ? bs Ha Hl]; subst.
      rewrite Ha. simpl. apply IH in Hl. rewrite Hl. reflexivity.
Qed.

Lemma mapM_Raise (A R : Type) (f : A -> result R) (l : list A) (e : exn) :
  mapM f l = Raise e -> exists a, In a l /\ f a = Raise e.
Proof.
  induction l as [|a l IH]; simpl; intros H; [discriminate H|].
  destruct (f a) as [b|e'] eqn:Ha; simpl in H.
  - destruct (mapM f l) as [bs|e''] eqn:Hl; simpl in H; [discriminate H|].
    injection H as ->. destruct (IH eq_refl) as [x [Hx Hfx]].
    exists x. auto.
  - injection H as ->. exists a. auto.
Qed.

Lemma mapM_total (A R : Type) (f : A -> result R) (l : list A) :
  Forall (fun a => exists b, f a = Ok b) l -> exists l', mapM f l = Ok l'.
Proof.
  induction 1 as [|a l [b Hb] _ [l' IH]]; simpl.
  - eexists. reflexivity.
  - rewrite Hb. simpl. rewrite IH. simpl. eexists. reflexivity.
Qed.

(** A loop that appends one result per element is [mapM] onto the end of
    the accumulator. *)
Lemma forM_append (A R : Type) (f : A -> result R) (l : list A) (acc : list R) :
  forM (fun acc a => b <- f a ;; Ok (acc ++ [b])) l acc =
  (new <- mapM f l ;; Ok (acc ++ new)).
Proof.
  revert acc; induction l as [|a l IH]; simpl; intros acc.
  - rewrite app_nil_r. reflexivity.
  - destruct (f a) as [b|e]; simpl; [|reflexivity].
    rewrite IH. destruct (mapM f l) as [bs|e]; simpl; [|reflexivity].
    rewrite <- app_assoc. reflexivity.
Qed.

Lemma forM_ext_in (A S : Type) (f g : S -> A -> result S) (l : list A) (s : S) :
  (forall s a, In a l -> f s a = g s a) -> forM f l s = forM g l s.
Proof.
  revert s; induction l as [|a l IH]; simpl; intros s H; [reflexivity|].
  rewrite (H s a) by auto.
  destruct (g s a) as [s'|e]; simpl; [|reflexivity].
  apply IH. intros; apply H; auto.
Qed.

(** ** The loader *)

Section DataFacts.

Context {B : Builtins}.

Lemma readable_functional (fs : str -> option str) (ds c1 c2 : list str) :
  readable fs ds c1 -> readable fs ds c2 -> c1 = c2.
Proof.
  unfold readable. intros H1. revert c2.
  induction H1 as [|p c ds c1 Hp _ IH]; intros c2 H2; inversion H2; subst.
  - reflexivity.
  - f_equal; [congruence | now apply IH].
Qed.

Lemma readable_In (fs : str -> option str) (ds contents : list str)
      (p c : str) :
  readable fs ds contents -> In p ds -> fs p = Some c -> In c contents.
Proof.
  unfold readable. induction 1 as [|q c' ds contents Hq _ IH]; simpl.
  - intros [].
  - intros [-> | Hin] Hp; [left; congruence | right; auto].
Qed.

Lemma check_lines_cases (is_test : bool) (lines : list (list str)) :
  (forM (fun (_ : unit) line => check_line is_test line) lines tt = Ok tt /\
   Forall (fun l => length l = expected_fields is_test) lines) \/
  (exists l, forM (fun (_ : unit) line => check_line is_test line) lines tt
             = Raise (AssertionError l) /\
             In l lines /\ length l <> expected_fields is_test).
Proof.
  induction lines as [|l lines IH]; simpl.
  - left. split; [reflexivity | constructor].
  - assert (Hc : (check_line is_test l = Ok tt /\
                  length l = expected_fields is_test) \/
                 (check_line is_test l = Raise (AssertionError l) /\
                  length l <> expected_fields is_test)).
    { unfold check_line, expected_fields. destruct is_test; simpl.
      - destruct (Nat.eqb_spec (length l) 7); [left | right]; auto.
      - destruct (Nat.eqb_spec (length l) 11); [left | right]; auto. }
    destruct Hc as [[-> Hlen] | [-> Hlen]]; simpl.
    + destruct IH as [[-> Hall] | (l' & -> & Hin & Hne)].
      * left. split; [reflexivity | constructor; assumption].
      * right. exists l'. auto.
    + right. exists l. auto.
Qed.

(** Loading one readable file: what is appended, or how it fails. *)
Lemma load_file_cases (fs : str -> option str) (is_test : bool)
      (acc : list Instance) (p c : str) :
  fs p = Some c ->
  (exists new,
     load_file fs is_test acc p = Ok (acc ++ new) /\
     Forall (fun l => length l = expected_fields is_test) (read_lines c) /\
     Forall2 (fun line i => Instance_init line is_test = Ok i)
             (read_lines c) new) \/
  (exists e, load_file fs is_test acc p = Raise e /\ format_error e).
Proof.
  intros Hp. unfold load_file. rewrite Hp. simpl.
  destruct (check_lines_cases is_test (read_lines c))
    as [[-> Hall] | (l & -> & _ & _)]; simpl.
  - rewrite forM_append.
    destruct (mapM (fun l => Instance_init l is_test) (read_lines c))
      as [new|e] eqn:Hm; simpl.
    + left. exists new. repeat split; [assumption|]. now apply mapM_Ok.
    + right. exists e. split; [reflexivity|].
      apply mapM_Raise in Hm. destruct Hm as (l & Hl & He).
      rewrite Forall_forall in Hall.
      destruct (Instance_init_counted l is_test (Hall l Hl)) as [[i Hi] | Hv].
      * congruence.
      * left. congruence.
  - right. eexists. split; [reflexivity|]. right. eexists. reflexivity.
Qed.

Lemma load_files_Ok (fs : str -> option str) (is_test : bool)
      (ds : list str) (acc insts : list Instance) :
  forM (load_file fs is_test) ds acc = Ok insts ->
  exists contents new,
    readable fs ds contents /\
    Forall (fun l => length l = expected_fields is_test) (all_lines contents) /\
    Forall2 (fun line i => Instance_init line is_test = Ok i)
            (all_lines contents) new /\
    insts = acc ++ new.
Proof.
  revert acc; induction ds as [|p ds IH]; simpl; intros acc H.
  - injection H as <-. exists [], []. repeat split; try constructor.
    now rewrite app_nil_r.
  - destruct (fs p) as [c|] eqn:Hp.
    2:{ unfold load_file in H. rewrite Hp in H. discriminate H. }
    destruct (load_file_cases fs is_test acc p Hp)
      as [(new & Hl & Hlen & Hi) | (e & Hl & _)]; rewrite Hl in H; simpl in H;
      [|discriminate H].
    destruct (IH _ H) as (contents & new' & Hr & Hlen' & Hi' & ->).
    exists (c :: contents), (new ++ new'). unfold all_lines. simpl.
    repeat split.
    + constructor; assumption.
    + apply Forall_app. split; assumption.
    + apply Forall2_app; assumption.
    + now rewrite app_assoc.
Qed.

Lemma load_files_readable (fs : str -> option str) (is_test : bool)
      (ds contents : list str) (acc : list Instance) :
  readable fs ds contents ->
  (exists insts, forM (load_file fs is_test) ds acc = Ok insts) \/
  (exists e, forM (load_file fs is_test) ds acc = Raise e /\ format_error e).
Proof.
  intros Hr. revert acc.
  induction Hr as [|p c ds contents Hp _ IH]; simpl; intros acc.
  - left. eexists. reflexivity.
  - destruct (load_file_cases fs is_test acc p Hp)
      as [(new & -> & _) | (e & -> & He)]; simpl.
    + apply IH.
    + right. exists e. auto.
Qed.

End DataFacts.

Section LoadFacts.

Context {B : Builtins}.

(** What a successful load holds. *)
Lemma Data_init_Ok (fs : str -> option str) (ds : list str) (is_test : bool)
      (d : Data) :
  Data_init fs ds is_test = Ok d ->
  exists contents,
    readable fs ds contents /\
    Forall (fun l => length l = expected_fields is_test) (all_lines contents) /\
    Forall2 (fun line i => Instance_init line is_test = Ok i)
            (all_lines contents) (instances d) /\
    test d = is_test /\
    (if is_test then y d = [] /\ y_prob d = []
     else exists ys ps,
         mapM label_binary (instances d) = Ok ys /\
         mapM label_prob (instances d) = Ok ps /\
         y d = np_array_int ys /\ y_prob d = np_array_float ps).
Proof.
  unfold Data_init, load_data. simpl. intros H.
  destruct (forM (load_file fs is_test) ds []) as [insts|e] eqn:Hl; simpl in H;
    [|discriminate H].
  apply load_files_Ok in Hl.
  destruct Hl as (contents & new & Hr & Hlen & Hi & ->). simpl in H.
  exists contents. destruct is_test; simpl in H.
  - injection H as <-. simpl. repeat split; assumption.
  - destruct (mapM label_binary new) as [ys|e] eqn:Hy; simpl in H;
      [|discriminate H].
    destruct (mapM label_prob new) as [ps|e] eqn:Hp; simpl in H;
      [|discriminate H].
    injection H as <-. simpl. repeat split; try assumption.
    exists ys, ps. repeat split; assumption.
Qed.

(** When every listed file can be opened, a load succeeds or raises a
    format error. *)
Lemma Data_init_readable (fs : str -> option str) (ds contents : list str)
      (is_test : bool) :
  readable fs ds contents ->
  (exists d, Data_init fs ds is_test = Ok d) \/
  (exists e, Data_init fs ds is_test = Raise e /\ format_error e).
Proof.
  intros Hr. unfold Data_init, load_data. simpl.
  destruct (load_files_readable is_test [] Hr) as [[insts Hl] | (e & Hl & He)].
  2:{ right. exists e. rewrite Hl. auto. }
  left. rewrite Hl. simpl.
  destruct is_test; simpl; [eexists; reflexivity|].
  apply load_files_Ok in Hl.
  destruct Hl as (contents' & new & _ & _ & Hi & ->). simpl.
  assert (Hlab : Forall (fun i => label i <> None) new).
  { clear -Hi. induction Hi as [|l i ls is0 Hli _ IH]; constructor; auto.
    exact (Instance_init_label _ Hli). }
  destruct (@mapM_total _ _ label_binary new) as [ys ->].
  { eapply Forall_impl; [|exact Hlab]. intros i Hi'. unfold label_binary.
    destruct (label i) eqn:E; [eexists; reflexivity | exfalso; exact (Hi' E)]. }
  destruct (@mapM_total _ _ label_prob new) as [ps ->].
  { eapply Forall_impl; [|exact Hlab]. intros i Hi'. unfold label_prob.
    destruct (label i) eqn:E; [eexists; reflexivity | exfalso; exact (Hi' E)]. }
  simpl. eexists. reflexivity.
Qed.

(** A load reads nothing but the listed files. *)
Lemma load_file_ext (fs1 fs2 : str -> option str) (is_test : bool)
      (acc : list Instance) (p : str) :
  fs1 p = fs2 p -> load_file fs1 is_test acc p = load_file fs2 is_test acc p.
Proof. intros H. unfold load_file. rewrite H. reflexivity. Qed.

End LoadFacts.

(** ** Slices around a position *)

Lemma char_at_mid (pre post : str) (c : N) :
  char_at (pre ++ c :: post) (length pre) = [c].
Proof.
  unfold char_at. rewrite skipn_app, skipn_all, Nat.sub_diag. reflexivity.
Qed.

Lemma slice_one (pre post : str) (c : N) :
  slice (pre ++ c :: post) (length pre) (length pre + 1) = [c].
Proof.
  unfold slice. rewrite skipn_app, skipn_all, Nat.sub_diag.
  replace (length pre + 1 - length pre) with 1 by lia. reflexivity.
Qed.

Lemma slice_mid (pre pending post : str) :
  slice (pre ++ pending ++ post) (length pre) (length (pre ++ pending)) = pending.
Proof.
  unfold slice. rewrite skipn_app, skipn_all, Nat.sub_diag, length_app.
  replace (length pre + length pending - length pre) with (length pending)
    by lia.
  simpl. rewrite firstn_app, firstn_all, Nat.sub_diag. simpl.
  apply app_nil_r.
Qed.

(** * The claims of the specification *)

(** C1. The labeled row with hit_id "H1", sentence "The cat's toy.",
    offsets 4 and 9, target_chars "cat's ", annotator counts (5, 2),
    difficult counts (1, 0), binary label 1 and probabilistic label 0.33
    is constructed into the instance whose tokens are
    "the", "cat", "'s", "toy", ".", whose target token indices are 1 and 2
    and whose label is (1, 0.33). *)
Theorem scenario_cat_instance :
  @Instance_init Scenario.builtins Scenario.row_cat false
  = Ok Scenario.inst_cat /\
  tokens Scenario.inst_cat
  = [lit "the"; lit "cat"; lit "'s"; lit "toy"; lit "."] /\
  target Scenario.inst_cat = [1; 2] /\
  label Scenario.inst_cat = Some (1%Z, Qmake 33 100).
Proof.
  split; [vm_compute; reflexivity | repeat split].
Qed.

(** C2. For every sentence and every pair of integer offsets, the sorted
    target token indices of the tokenizer are strictly increasing, free of
    duplicates, and each is an index into the tokens; these are the tokens
    and the target token indices of every instance constructed from a
    row. *)
Theorem target_indices_valid (B : Builtins) :
  (forall (s : str) (off : Z * Z),
     StronglySorted lt (NatSort.sort (snd (tokenize s off))) /\
     NoDup (NatSort.sort (snd (tokenize s off))) /\
     Forall (fun k => k < length (fst (tokenize s off)))
            (NatSort.sort (snd (tokenize s off)))) /\
  (forall (row : list str) (is_test : bool) (inst : Instance),
     Instance_init row is_test = Ok inst ->
     StronglySorted lt (target inst) /\
     NoDup (target inst) /\
     Forall (fun k => k < length (tokens inst)) (target inst)).
Proof.
  assert (Htok : forall (s : str) (off : Z * Z),
             StronglySorted lt (NatSort.sort (snd (tokenize s off))) /\
             NoDup (NatSort.sort (snd (tokenize s off))) /\
             Forall (fun k => k < length (fst (tokenize s off)))
                    (NatSort.sort (snd (tokenize s off)))).
  { intros s off. destruct (tokenize_keys s off) as [Hnd Hb].
    destruct (sort_strict Hnd) as [Hs Hin].
    split; [exact Hs|]. split.
    - eapply Permutation_NoDup; [apply NatSort.Permuted_sort | exact Hnd].
    - rewrite Forall_forall in *. intros k Hk. apply Hb, Hin, Hk. }
  split; [exact Htok|].
  intros row is_test inst H. apply Instance_init_inv in H.
  destruct H as [_ [Ht [Hg _]]]. rewrite Ht, Hg. apply Htok.
Qed.

Lemma target_indices_valid_witness :
  StronglySorted lt (target Scenario.inst_cat) /\
  NoDup (target Scenario.inst_cat) /\
  Forall (fun k => k < length (tokens Scenario.inst_cat))
         (target Scenario.inst_cat).
Proof.
  apply (proj2 (target_indices_valid Scenario.builtins) Scenario.row_cat false).
  vm_compute. reflexivity.
Defined.

(** C3, as the specification states it, fails: on the sentence
    "The cat's toy." the empty span (4, 4) at position 4 gives an instance
    without any target token index. *)
Lemma empty_span_counterexample :
  @Instance_init Scenario.builtins Scenario.row_empty_span false
  = Ok Scenario.inst_empty_span /\
  offset Scenario.inst_empty_span = (4, 4)%Z /\
  (0 <= 4 < Z.of_nat (length (sentence Scenario.inst_empty_span)))%Z /\
  ~ (exists k, In k (target Scenario.inst_empty_span)).
Proof.
  split; [vm_compute; reflexivity|].
  split; [reflexivity|]. split; [simpl; lia|]. intros [k []].
Qed.

(** C3, amended. For every sentence and every position p, the tokenizer
    run with the empty span (p, p) records no target token index, and an
    instance constructed with that span has none. *)
Theorem empty_span_no_target (B : Builtins) :
  (forall (s : str) (p : Z), NatSort.sort (snd (tokenize s (p, p))) = []) /\
  (forall (row : list str) (is_test : bool) (inst : Instance) (p : Z),
     Instance_init row is_test = Ok inst ->
     offset inst = (p, p) ->
     target inst = []).
Proof.
  split.
  - intros s p. rewrite tokenize_empty_span by lia. reflexivity.
  - intros row is_test inst p H Hoff. apply Instance_init_inv in H.
    destruct H as [_ [_ [Htgt _]]]. rewrite Htgt, Hoff.
    rewrite tokenize_empty_span by lia. reflexivity.
Qed.

Lemma empty_span_no_target_witness :
  @Instance_init Scenario.builtins Scenario.row_empty_span false
  = Ok Scenario.inst_empty_span /\
  target Scenario.inst_empty_span = [].
Proof.
  split; [vm_compute; reflexivity|].
  apply (proj2 (empty_span_no_target Scenario.builtins)
               Scenario.row_empty_span false Scenario.inst_empty_span 4%Z);
    vm_compute; reflexivity.
Defined.

(** C4. The tokenizer does emit empty tokens: the apostrophe branch
    appends the pending text without looking at it, and so does the flush
    on the last character.  On the sentence a, space, apostrophe, b the
    tokens are a, the empty string and apostrophe-b; on the sentence a,
    space they are a and the empty string. *)
Theorem tokenize_emits_empty_token :
  fst (@tokenize Scenario.builtins (lit "a 'b") (0, 1)%Z)
  = [lit "a"; []; lit "'b"] /\
  fst (@tokenize Scenario.builtins (lit "a ") (0, 1)%Z) = [lit "a"; []].
Proof.
  split; vm_compute; reflexivity.
Qed.

(** Rows counted and constructed are not malformed. *)
Lemma constructed_not_malformed (B : Builtins) (is_test : bool)
      (lines : list (list str)) (new : list Instance) (line : list str) :
  Forall (fun l => length l = expected_fields is_test) lines ->
  Forall2 (fun l i => Instance_init l is_test = Ok i) lines new ->
  In line lines -> ~ malformed is_test line.
Proof.
  intros Hlen Hi Hin [Hcount | (k & f & Hk & Hf & Hpar)].
  - rewrite Forall_forall in Hlen. exact (Hcount (Hlen line Hin)).
  - assert (Hex : exists i, Instance_init line is_test = Ok i).
    { clear -Hi Hin. induction Hi as [|l i ls is0 Hli _ IH]; [destruct Hin|].
      destruct Hin as [<- | Hin]; [eauto | auto]. }
    destruct Hex as [i Hi'].
    assert (Ht : parses k f = true)
      by (eapply Instance_init_parses; eassumption).
    congruence.
Qed.

(** Files that can be opened, then a file with a malformed line: the loop
    over the files raises a format error. *)
Lemma load_files_malformed (B : Builtins) (fs : str -> option str)
      (is_test : bool) (pre post : list str) (p c : str) (line : list str)
      (acc : list Instance) :
  (forall q, In q pre -> fs q <> None) ->
  fs p = Some c -> In line (read_lines c) -> malformed is_test line ->
  exists e, forM (load_file fs is_test) (pre ++ p :: post) acc = Raise e /\
            format_error e.
Proof.
  intros Hpre Hp Hin Hbad. revert acc.
  induction pre as [|q pre IH]; simpl; intros acc.
  - destruct (load_file_cases fs is_test acc p Hp)
      as [(new & _ & Hlen & Hi) | (e & -> & He)].
    + exfalso.
      exact (@constructed_not_malformed B is_test (read_lines c) new line
               Hlen Hi Hin Hbad).
    + exists e. simpl. auto.
  - destruct (fs q) as [c'|] eqn:Hq;
      [|exfalso; apply (Hpre q); [left; reflexivity | exact Hq]].
    destruct (load_file_cases fs is_test acc q Hq)
      as [(new & -> & _) | (e & -> & He)]; simpl.
    + apply IH. intros q' Hq'. apply Hpre. right. exact Hq'.
    + exists e. auto.
Qed.

(** C5, as the specification states it, fails: when a file listed before the
    file with the malformed line cannot be opened, the load fails with the
    error of the missing file, which is no format error. *)
Lemma load_rejects_malformed_counterexample :
  In (lit "short.tsv") [lit "gone.tsv"; lit "short.tsv"] /\
  Scenario.files (lit "short.tsv")
  = Some (Scenario.file_of [Scenario.row_short]) /\
  In Scenario.row_short
     (@read_lines (Scenario.file_of [Scenario.row_short])) /\
  @malformed Scenario.builtins false Scenario.row_short /\
  @Data_init Scenario.builtins Scenario.files
             [lit "gone.tsv"; lit "short.tsv"] false
  = Raise (FileNotFoundError (lit "gone.tsv")) /\
  ~ format_error (FileNotFoundError (lit "gone.tsv")).
Proof.
  split; [right; left; reflexivity|]. split; [reflexivity|].
  split; [vm_compute; left; reflexivity|].
  split; [left; vm_compute; lia|].
  split; [vm_compute; reflexivity|].
  intros [H | [l H]]; discriminate H.
Qed.

(** C5, amended. A load in which some line of some listed file has a number
    of fields other than that of the mode (11 labeled, 7 test), or a numeric
    field that does not parse, fails and returns no dataset; the exception
    is a format error when every file listed before that file can be
    opened, and in particular when every listed file can. *)
Theorem load_rejects_malformed (B : Builtins) (fs : str -> option str)
        (ds : list str) (is_test : bool) (p c : str) (line : list str) :
  In p ds -> fs p = Some c -> In line (read_lines c) ->
  malformed is_test line ->
  exists e, Data_init fs ds is_test = Raise e /\
            (forall pre post, ds = pre ++ p :: post ->
                              (forall q, In q pre -> fs q <> None) ->
                              format_error e) /\
            ((exists contents, readable fs ds contents) -> format_error e).
Proof.
  intros Hp Hc Hin Hbad.
  assert (Hprefix : forall pre post, ds = pre ++ p :: post ->
            (forall q, In q pre -> fs q <> None) ->
            exists e, Data_init fs ds is_test = Raise e /\ format_error e).
  { intros pre post -> Hpre. unfold Data_init, load_data. simpl.
    destruct (@load_files_malformed B fs is_test pre post p c line []
                Hpre Hc Hin Hbad) as (e & -> & He).
    exists e. auto. }
  destruct (in_split p ds Hp) as (pre0 & post0 & Hds).
  destruct (Data_init fs ds is_test) as [d|e] eqn:Hd.
  - exfalso. apply Data_init_Ok in Hd.
    destruct Hd as (contents & Hr & Hlen & Hi & _).
    assert (Hall : In line (all_lines contents)).
    { unfold all_lines. apply in_concat. exists (read_lines c).
      split; [|exact Hin]. apply in_map. eapply readable_In; eassumption. }
    exact (@constructed_not_malformed B is_test (all_lines contents)
             (instances d) line Hlen Hi Hall Hbad).
  - exists e. split; [reflexivity|]. split.
    + intros pre post Hsplit Hpre.
      destruct (Hprefix pre post Hsplit Hpre) as (e' & He' & Hf). congruence.
    + intros [contents Hr].
      destruct (Hprefix pre0 post0 Hds) as (e' & He' & Hf); [|congruence].
      intros q Hq Hnone.
      assert (Hin' : In q ds) by (rewrite Hds; apply in_or_app; auto).
      clear -Hr Hin' Hnone.
      induction Hr as [|q' c' ds contents Hq' _ IH]; simpl in Hin'.
      * exact Hin'.
      * destruct Hin' as [-> | Hin']; [congruence | auto].
Qed.

(** A line of ten fields in labeled mode, in the first listed file; the
    second listed file cannot be opened. *)
Lemma load_rejects_malformed_witness :
  exists e,
    @Data_init Scenario.builtins Scenario.files
               [lit "short.tsv"; lit "gone.tsv"] false
    = Raise e /\ format_error e.
Proof.
  destruct (@load_rejects_malformed Scenario.builtins Scenario.files
              [lit "short.tsv"; lit "gone.tsv"] false (lit "short.tsv")
              (Scenario.file_of [Scenario.row_short]) Scenario.row_short)
    as (e & He & Hf & _).
  - left. reflexivity.
  - reflexivity.
  - vm_compute. left. reflexivity.
  - left. vm_compute. lia.
  - exists e. split; [exact He|].
    apply (Hf [] [lit "gone.tsv"]); [reflexivity|]. intros q [].
Defined.

(** C6, as the specification states it, fails: the row of the scenario with
    its offsets exchanged (start 9, end 4) is constructed all the same. *)
Lemma offset_order_counterexample :
  @Instance_init Scenario.builtins Scenario.row_exchanged false
  = Ok Scenario.inst_exchanged /\
  ~ (fst (offset Scenario.inst_exchanged)
     <= snd (offset Scenario.inst_exchanged)
     <= Z.of_nat (length (sentence Scenario.inst_exchanged)))%Z.
Proof.
  split; [vm_compute; reflexivity|]. simpl. lia.
Qed.

(** C6, amended. For every instance constructed by the parser, the sentence
    is the second field of the row and the start and end of the offset are
    the integers its third and fourth fields parse to, whatever their order
    and whatever the length of the sentence. *)
Theorem offset_as_parsed (B : Builtins) (row : list str) (is_test : bool)
        (inst : Instance) :
  Instance_init row is_test = Ok inst ->
  exists f2 f3,
    nth_error row 1 = Some (sentence inst) /\
    nth_error row 2 = Some f2 /\ int_of_str f2 = Some (fst (offset inst)) /\
    nth_error row 3 = Some f3 /\ int_of_str f3 = Some (snd (offset inst)).
Proof.
  intros H. apply Instance_init_inv in H.
  destruct H as [(f2 & f3 & f5 & f6 & _ & H1 & H2 & I2 & H3 & I3 & _) _].
  exists f2, f3. repeat split; assumption.
Qed.

Lemma offset_as_parsed_witness :
  exists f2 f3,
    nth_error Scenario.row_exchanged 1
    = Some (sentence Scenario.inst_exchanged) /\
    nth_error Scenario.row_exchanged 2 = Some f2 /\
    @int_of_str Scenario.builtins f2
    = Some (fst (offset Scenario.inst_exchanged)) /\
    nth_error Scenario.row_exchanged 3 = Some f3 /\
    @int_of_str Scenario.builtins f3
    = Some (snd (offset Scenario.inst_exchanged)).
Proof.
  apply (@offset_as_parsed Scenario.builtins Scenario.row_exchanged false
           Scenario.inst_exchanged).
  vm_compute. reflexivity.
Defined.

Lemma Forall2_nth_error (A R : Type) (P : A -> R -> Prop) (l : list A)
      (l' : list R) (i : nat) (a : A) :
  Forall2 P l l' -> nth_error l i = Some a ->
  exists b, nth_error l' i = Some b /\ P a b.
Proof.
  intros H. revert i. induction H as [|x y l l' Hxy _ IH]; intros [|i] Hi;
    simpl in *; try discriminate Hi.
  - injection Hi as <-. eauto.
  - auto.
Qed.

(** C7, as the specification states it, fails: in a file whose two rows have
    the binary labels -1 and 2^63 + 1 the array of binary labels is a
    float64 array, and its second element is 2^63, not the label of the
    second instance. *)
Lemma labels_parallel_counterexample :
  exists d inst,
    @Data_init Scenario.builtins More.files [lit "big.tsv"] false = Ok d /\
    nth_error (instances d) 1 = Some inst /\
    label inst = Some ((2 ^ 63 + 1)%Z, Qmake 0 10) /\
    nth_error (y d) 1 = Some (2 ^ 63)%Z /\
    ~ (exists b p, label inst = Some (b, p) /\ nth_error (y d) 1 = Some b).
Proof.
  eexists. eexists.
  split; [vm_compute; reflexivity|]. split; [reflexivity|].
  split; [reflexivity|]. split; [reflexivity|].
  intros (b & p & Hl & Hy). vm_compute in Hl, Hy. congruence.
Qed.

(** C7, amended. For every dataset loaded outside test mode, the two label
    arrays are as long as the sequence of instances and the element of the
    probabilistic array at each index is the probabilistic component of the
    label of the instance at that index; when every binary label lies in
    the int64 range, the element of the binary array at each index is the
    binary component of that label. *)
Theorem labels_parallel (B : Builtins) (fs : str -> option str)
        (ds : list str) (d : Data) :
  Data_init fs ds false = Ok d ->
  length (y d) = length (instances d) /\
  length (y_prob d) = length (instances d) /\
  (forall i inst, nth_error (instances d) i = Some inst ->
     exists b p, label inst = Some (b, p) /\
                 nth_error (y_prob d) i = Some p) /\
  (Forall (fun inst => forall b p, label inst = Some (b, p) ->
                                   (- 2 ^ 63 <= b < 2 ^ 63)%Z)
          (instances d) ->
   forall i inst, nth_error (instances d) i = Some inst ->
     exists b p, label inst = Some (b, p) /\
                 nth_error (y d) i = Some b /\
                 nth_error (y_prob d) i = Some p).
Proof.
  intros H. apply Data_init_Ok in H.
  destruct H as (contents & _ & _ & _ & _ & ys & ps & Hy & Hp & -> & ->).
  apply mapM_Ok in Hy, Hp. unfold np_array_float.
  assert (Hboth : forall i inst, nth_error (instances d) i = Some inst ->
            exists b p, label inst = Some (b, p) /\
                        nth_error ys i = Some b /\ nth_error ps i = Some p).
  { intros i inst Hi.
    destruct (Forall2_nth_error i Hy Hi) as (b & Hb & Hlb).
    destruct (Forall2_nth_error i Hp Hi) as (p & Hpp & Hlp).
    unfold label_binary in Hlb. unfold label_prob in Hlp.
    destruct (label inst) as [[b' p']|]; [|discriminate Hlb].
    simpl in *. injection Hlb as ->. injection Hlp as ->.
    exists b, p. auto. }
  split; [rewrite np_array_int_length; symmetry; eapply Forall2_length;
          exact Hy|].
  split; [symmetry; eapply Forall2_length; exact Hp|].
  split.
  - intros i inst Hi. destruct (Hboth i inst Hi) as (b & p & Hl & _ & Hpi).
    exists b, p. auto.
  - intros Hrange. rewrite np_array_int_exact; [exact Hboth|].
    clear -Hy Hrange.
    induction Hy as [|inst b insts ys Hb _ IH]; constructor.
    + inversion Hrange as [|? ? Hr _]; subst. unfold label_binary in Hb.
      destruct (label inst) as [[b' p']|] eqn:E; [|discriminate Hb].
      injection Hb as <-. exact (Hr b' p' eq_refl).
    + apply IH. now inversion Hrange.
Qed.

Lemma labels_parallel_witness :
  exists d,
    @Data_init Scenario.builtins Scenario.files
               [lit "news.tsv"; lit "wiki.tsv"] false = Ok d /\
    y d = [1; 0]%Z /\
    length (y d) = length (instances d) /\
    length (y_prob d) = length (instances d) /\
    forall i inst, nth_error (instances d) i = Some inst ->
      exists b p, label inst = Some (b, p) /\
                  nth_error (y d) i = Some b /\
                  nth_error (y_prob d) i = Some p.
Proof.
  eexists. split; [vm_compute; reflexivity|]. split; [reflexivity|].
  destruct (@labels_parallel Scenario.builtins Scenario.files
              [lit "news.tsv"; lit "wiki.tsv"] _ eq_refl)
    as (H1 & H2 & _ & H4).
  split; [exact H1|]. split; [exact H2|]. apply H4.
  apply Forall_cons; [|apply Forall_cons; [|apply Forall_nil]];
    intros b p Hl; vm_compute in Hl; injection Hl as <- _; lia.
Defined.

(** C8. A load constructs exactly one instance per line, in the order of
    the listed files and, within a file, of its lines; in particular a load
    of two files of one line each gives exactly two instances, that of the
    first file's line and then that of the second file's line. *)
Theorem load_one_instance_per_line (B : Builtins) (fs : str -> option str)
        (ds : list str) (is_test : bool) (d : Data) :
  Data_init fs ds is_test = Ok d ->
  (exists contents,
     readable fs ds contents /\
     length (instances d) = length (all_lines contents) /\
     Forall2 (fun line i => Instance_init line is_test = Ok i)
             (all_lines contents) (instances d)) /\
  (forall (p1 p2 c1 c2 : str) (l1 l2 : list str),
     ds = [p1; p2] -> fs p1 = Some c1 -> fs p2 = Some c2 ->
     read_lines c1 = [l1] -> read_lines c2 = [l2] ->
     exists i1 i2,
       instances d = [i1; i2] /\
       Instance_init l1 is_test = Ok i1 /\ Instance_init l2 is_test = Ok i2).
Proof.
  intros H. apply Data_init_Ok in H.
  destruct H as (contents & Hr & _ & Hi & _). split.
  - exists contents. repeat split; try assumption.
    symmetry. eapply Forall2_length. exact Hi.
  - intros p1 p2 c1 c2 l1 l2 -> H1 H2 Hl1 Hl2.
    assert (Hc : contents = [c1; c2]).
    { apply (readable_functional Hr).
      constructor; [exact H1|]. constructor; [exact H2 | constructor]. }
    subst contents. unfold all_lines in Hi. simpl in Hi.
    rewrite Hl1, Hl2 in Hi. simpl in Hi.
    inversion Hi as [|? i1 ? r1 Ha Hi1]; subst.
    inversion Hi1 as [|? i2 ? r2 Hb Hi2]; subst.
    inversion Hi2; subst.
    exists i1, i2. repeat split; assumption.
Qed.

(** Two files of one line each: two instances, the first file's first. *)
Lemma load_one_instance_per_line_witness :
  exists d,
    @Data_init Scenario.builtins Scenario.files
               [lit "news.tsv"; lit "wiki.tsv"] false = Ok d /\
    map hit_id (instances d) = [lit "H1"; lit "H2"] /\
    exists i1 i2,
      instances d = [i1; i2] /\
      Instance_init Scenario.row_cat false = Ok i1 /\
      Instance_init Scenario.row_dog false = Ok i2.
Proof.
  eexists. split; [vm_compute; reflexivity|]. split; [reflexivity|].
  apply (proj2 (@load_one_instance_per_line Scenario.builtins Scenario.files
                  [lit "news.tsv"; lit "wiki.tsv"] false _ eq_refl)
               (lit "news.tsv") (lit "wiki.tsv")
               (Scenario.file_of [Scenario.row_cat])
               (Scenario.file_of [Scenario.row_dog]));
    reflexivity.
Defined.

(** C9. Two loads of the same list of files in the same mode give the same
    result, hence value-equal instances, whenever the listed files have the
    same contents in both runs. *)
Theorem load_deterministic (B : Builtins) (fs1 fs2 : str -> option str)
        (ds : list str) (is_test : bool) :
  (forall p, In p ds -> fs1 p = fs2 p) ->
  Data_init fs1 ds is_test = Data_init fs2 ds is_test.
Proof.
  intros H. unfold Data_init, load_data. simpl.
  rewrite (@forM_ext_in _ _ (load_file fs1 is_test) (load_file fs2 is_test)).
  - reflexivity.
  - intros acc p Hp. apply load_file_ext. exact (H p Hp).
Qed.

Lemma load_deterministic_witness :
  @Data_init Scenario.builtins Scenario.files
             [lit "news.tsv"; lit "wiki.tsv"] false
  = @Data_init Scenario.builtins Scenario.files'
               [lit "news.tsv"; lit "wiki.tsv"] false.
Proof.
  apply (@load_deterministic Scenario.builtins Scenario.files Scenario.files').
  intros p [<- | [<- | []]]; reflexivity.
Defined.

(** C10. On the curly opening quote the tokenizer emits the quote alone and
    moves the start of the pending span past it, so the pending text is in
    no token: the sentence a, b, curly opening quote, c gives the two tokens
    curly quote and c.  The straight double quote is a sentence-ending
    character: the pending text, when there is some, is emitted before the
    quote, so the sentence a, b, straight quote, c gives the three tokens
    ab, straight quote and c. *)
Theorem quote_branches (B : Builtins) :
  (forall (pre pending post : str) (toks : list str),
     branch (pre ++ pending ++ ldquo ++ post) toks
            (length pre) (length (pre ++ pending))
     = (toks ++ [lower ldquo], length (pre ++ pending) + 1)) /\
  (forall (pre pending post : str) (toks : list str),
     branch (pre ++ pending ++ [34%N] ++ post) toks
            (length pre) (length (pre ++ pending))
     = ((match pending with [] => toks | _ => toks ++ [lower pending] end)
          ++ [lower [34%N]],
        length (pre ++ pending) + 1)) /\
  (forall off : Z * Z,
     fst (tokenize (lit "ab" ++ ldquo ++ lit "c") off)
     = [lower ldquo; lower (lit "c")]) /\
  (forall off : Z * Z,
     fst (tokenize (lit "ab" ++ [34%N] ++ lit "c") off)
     = [lower (lit "ab"); lower [34%N]; lower (lit "c")]) /\
  fst (@tokenize Scenario.builtins (lit "ab" ++ ldquo ++ lit "c") (0, 0)%Z)
  = [ldquo; lit "c"] /\
  fst (@tokenize Scenario.builtins (lit "ab" ++ [34%N] ++ lit "c") (0, 0)%Z)
  = [lit "ab"; [34%N]; lit "c"].
Proof.
  split; [|split; [|split; [|split; [|split]]]].
  - intros pre pending post toks. unfold branch, ldquo.
    replace (pre ++ pending ++ [8220%N] ++ post)
      with ((pre ++ pending) ++ 8220%N :: post)
      by (rewrite <- app_assoc; reflexivity).
    rewrite char_at_mid, slice_one. simpl.
    replace (0 <=? Z.of_nat (length (pre ++ pending)) - Z.of_nat (length pre))%Z
      with true; [reflexivity|].
    symmetry. apply Z.leb_le. rewrite length_app. lia.
  - intros pre pending post toks. unfold branch.
    replace (pre ++ pending ++ [34%N] ++ post)
      with ((pre ++ pending) ++ 34%N :: post)
      by (rewrite <- app_assoc; reflexivity).
    rewrite char_at_mid, slice_one. simpl.
    replace ((pre ++ pending) ++ 34%N :: post)
      with (pre ++ pending ++ 34%N :: post)
      by (rewrite <- app_assoc; reflexivity).
    rewrite slice_mid.
    destruct pending as [|c pending].
    + rewrite app_nil_r.
      replace (0 <? Z.of_nat (length pre) - Z.of_nat (length pre))%Z
        with false; [reflexivity|].
      symmetry. apply Z.ltb_ge. lia.
    + replace (0 <? Z.of_nat (length (pre ++ c :: pending))
                    - Z.of_nat (length pre))%Z with true; [reflexivity|].
      symmetry. apply Z.ltb_lt. rewrite length_app. simpl. lia.
  - intros off. reflexivity.
  - intros off. reflexivity.
  - vm_compute. reflexivity.
  - vm_compute. reflexivity.
Qed.

(** * Further properties of the code *)

(** ** The tokenizer beyond the claims *)

Section TokenizerMore.

Context {B : Builtins}.

(** The tokens and the pending start of an iteration do not depend on the
    span nor on the keys recorded so far. *)
Lemma step_tokens_ext (s : str) (o1 o2 : Z * Z) (st1 st2 : scan) (i : nat) :
  st_tokens st1 = st_tokens st2 -> st_start st1 = st_start st2 ->
  st_tokens (step s o1 st1 i) = st_tokens (step s o2 st2 i) /\
  st_start (step s o1 st1 i) = st_start (step s o2 st2 i).
Proof.
  intros Ht Hs. unfold step. rewrite Ht, Hs.
  destruct (branch s (st_tokens st2) (st_start st2) i) as [toks start].
  simpl. auto.
Qed.

Lemma run_tokens_ext (s : str) (o1 o2 : Z * Z) (idx : list nat)
      (st1 st2 : scan) :
  st_tokens st1 = st_tokens st2 -> st_start st1 = st_start st2 ->
  st_tokens (run s o1 idx st1) = st_tokens (run s o2 idx st2).
Proof.
  unfold run. revert st1 st2.
  induction idx as [|i idx IH]; simpl; intros st1 st2 Ht Hs; [assumption|].
  destruct (step_tokens_ext s o1 o2 st1 st2 i Ht Hs) as [Ht' Hs'].
  apply IH; assumption.
Qed.

(** The tokens of a sentence are the same whatever the target span. *)
Theorem tokens_independent_of_offset (s : str) (o1 o2 : Z * Z) :
  fst (tokenize s o1) = fst (tokenize s o2).
Proof.
  unfold tokenize. simpl. apply run_tokens_ext; reflexivity.
Qed.

(** A sentence has no token exactly when it is empty. *)
Theorem tokens_nil_iff (s : str) (off : Z * Z) :
  fst (tokenize s off) = [] <-> s = [].
Proof.
  split.
  - intros H. unfold tokenize in H. simpl in H.
    destruct (length s) as [|n] eqn:Hn;
      [apply length_zero_iff_nil; exact Hn|].
    exfalso. rewrite seq_S in H. simpl in H.
    unfold run in H. rewrite fold_left_app in H. simpl in H.
    assert (Hg : length (st_tokens (fold_left (step s off) (seq 0 n) scan_init))
                 < length (st_tokens
                             (step s off
                                   (fold_left (step s off) (seq 0 n) scan_init)
                                   n)))
      by (apply step_last_grows; lia).
    rewrite H in Hg. simpl in Hg. lia.
  - intros ->. reflexivity.
Qed.

(** Keys once recorded stay recorded. *)
Lemma step_keeps_keys (s : str) (off : Z * Z) (st : scan) (i k : nat) :
  In k (dict_keys (st_target st)) ->
  In k (dict_keys (st_target (step s off st i))).
Proof.
  intros H. unfold step.
  destruct (branch s (st_tokens st) (st_start st) i) as [toks start].
  simpl. destruct (in_range i (fst off) (snd off)); [|exact H].
  apply dict_set_keys. left. exact H.
Qed.

Lemma run_keeps_keys (s : str) (off : Z * Z) (idx : list nat) (st : scan)
      (k : nat) :
  In k (dict_keys (st_target st)) ->
  In k (dict_keys (st_target (run s off idx st))).
Proof.
  unfold run. revert st.
  induction idx as [|i idx IH]; simpl; intros st H; [exact H|].
  apply IH. now apply step_keeps_keys.
Qed.

Lemma step_records (s : str) (off : Z * Z) (st : scan) (i : nat) :
  in_range i (fst off) (snd off) = true ->
  In (length (st_tokens st)) (dict_keys (st_target (step s off st i))).
Proof.
  intros H. unfold step.
  destruct (branch s (st_tokens st) (st_start st) i) as [toks start].
  simpl. rewrite H. apply dict_set_keys. right. reflexivity.
Qed.

Lemma run_no_position (s : str) (off : Z * Z) (idx : list nat) (st : scan) :
  (forall i, In i idx -> in_range i (fst off) (snd off) = false) ->
  st_target (run s off idx st) = st_target st.
Proof.
  unfold run. revert st.
  induction idx as [|i idx IH]; simpl; intros st H; [reflexivity|].
  rewrite IH by (intros; apply H; auto).
  unfold step.
  destruct (branch s (st_tokens st) (st_start st) i) as [toks start].
  simpl. rewrite (H i) by auto. reflexivity.
Qed.

Lemma in_range_spec (i : nat) (a b : Z) :
  in_range i a b = true <-> (a <= Z.of_nat i < b)%Z.
Proof.
  unfold in_range. rewrite andb_true_iff, Z.leb_le, Z.ltb_lt. tauto.
Qed.

(** The tokenizer records a target index exactly when the span holds a
    character position of the sentence. *)
Lemma tokenize_target_nonempty (s : str) (off : Z * Z) :
  snd (tokenize s off) <> [] <-> span_meets s off.
Proof.
  unfold tokenize, span_meets. simpl. split.
  - intros H.
    destruct (existsb (fun i => in_range i (fst off) (snd off))
                      (seq 0 (length s))) eqn:E.
    + apply existsb_exists in E. destruct E as [i [Hi Hr]].
      apply in_seq in Hi. apply in_range_spec in Hr.
      exists i. split; [lia | exact Hr].
    + exfalso. apply H. rewrite run_no_position; [reflexivity|].
      intros i Hi.
      destruct (in_range i (fst off) (snd off)) eqn:Hr; [|reflexivity].
      assert (Ht : existsb (fun i => in_range i (fst off) (snd off))
                           (seq 0 (length s)) = true)
        by (apply existsb_exists; eauto).
      congruence.
  - intros [i [Hi Hr]] Hnil. apply in_range_spec in Hr.
    assert (Hsplit : seq 0 (length s)
                     = seq 0 i ++ i :: seq (S i) (length s - S i)).
    { replace (length s) with (i + S (length s - S i)) at 1 by lia.
      rewrite seq_app. reflexivity. }
    rewrite Hsplit in Hnil. unfold run in Hnil.
    rewrite fold_left_app in Hnil. simpl in Hnil.
    assert (Hk : In (length (st_tokens
                               (fold_left (step s off) (seq 0 i) scan_init)))
                    (dict_keys
                       (st_target
                          (step s off
                                (fold_left (step s off) (seq 0 i) scan_init)
                                i))))
      by (apply step_records; exact Hr).
    apply (@run_keeps_keys s off (seq (S i) (length s - S i))) in Hk.
    unfold run in Hk. rewrite Hnil in Hk. destruct Hk.
Qed.

End TokenizerMore.

(** ** Sorted keys *)

Lemma dict_set_keys_shape (V : Type) (d : list (nat * V)) (k : nat) (v : V) :
  dict_keys (dict_set d k v) = dict_keys d \/
  (~ In k (dict_keys d) /\ dict_keys (dict_set d k v) = dict_keys d ++ [k]).
Proof.
  unfold dict_keys. induction d as [|[k' v'] d IH]; simpl.
  - right. split; [tauto | reflexivity].
  - destruct (Nat.eqb_spec k' k) as [->|Hne]; simpl.
    + left. reflexivity.
    + destruct IH as [-> | [Hnin ->]].
      * left. reflexivity.
      * right. split; [|reflexivity]. intros [Heq | Hin]; auto.
Qed.

Lemma sorted_snoc (l : list nat) (k : nat) :
  StronglySorted lt l -> Forall (fun x => x < k) l ->
  StronglySorted lt (l ++ [k]).
Proof.
  induction 1 as [|a l Hl IH Ha]; intros Hk; simpl.
  - constructor; constructor.
  - inversion Hk as [|? ? Hak Hlk]; subst. constructor.
    + apply IH. exact Hlk.
    + apply Forall_app. split; [exact Ha | constructor; [exact Hak | constructor]].
Qed.

(** Two ascending lists with the same elements are the same list. *)
Lemma sorted_perm_eq (l1 l2 : list nat) :
  StronglySorted le l1 -> StronglySorted le l2 -> Permutation l1 l2 ->
  l1 = l2.
Proof.
  intros H1. revert l2. induction H1 as [|a l1 Hl1 IH Ha]; intros l2 H2 Hp.
  - apply Permutation_nil in Hp. now subst.
  - destruct H2 as [|b l2 Hl2 Hb].
    + apply Permutation_sym, Permutation_nil in Hp. discriminate Hp.
    + assert (Hab : a = b).
      { assert (Hin1 : In a (b :: l2))
          by (eapply Permutation_in; [exact Hp | left; reflexivity]).
        assert (Hin2 : In b (a :: l1))
          by (eapply Permutation_in;
              [apply Permutation_sym; exact Hp | left; reflexivity]).
        rewrite Forall_forall in Ha, Hb.
        destruct Hin1 as [Heq | Hin1]; [now symmetry|].
        destruct Hin2 as [Heq | Hin2]; [exact Heq|].
        specialize (Ha b Hin2). specialize (Hb a Hin1). lia. }
      subst b. f_equal. apply IH; [exact Hl2|].
      eapply Permutation_cons_inv. exact Hp.
Qed.

Lemma sort_ascending (l : list nat) :
  StronglySorted lt l -> NatSort.sort l = l.
Proof.
  intros H. apply sorted_perm_eq.
  - assert (Hs : StronglySorted (fun x y => is_true (NatOrder.leb x y))
                                (NatSort.sort l)).
    { apply NatSort.StronglySorted_sort.
      intros a b c Hab Hbc. apply natleb_le in Hab, Hbc. apply natleb_le. lia. }
    clear H. induction Hs as [|a r Hr IH Ha]; constructor; [exact IH|].
    eapply Forall_impl; [|exact Ha]. intros x Hx. now apply natleb_le.
  - clear -H. induction H as [|a r Hr IH Ha]; constructor; [exact IH|].
    eapply Forall_impl; [|exact Ha]. intros x Hx. lia.
  - apply Permutation_sym, NatSort.Permuted_sort.
Qed.

Section SortedKeys.

Context {B : Builtins}.

Lemma step_keys_ascending (s : str) (off : Z * Z) (st : scan) (i : nat) :
  keys_ascending st -> keys_ascending (step s off st i).
Proof.
  intros [Hs Hb]. pose proof (step_mono s off st i) as Hm.
  assert (Hb' : forall l, Forall (fun k => k <= length (st_tokens st)) l ->
                Forall (fun k => k <= length (st_tokens (step s off st i))) l).
  { intros l Hl. eapply Forall_impl; [|exact Hl]. simpl. intros; lia. }
  assert (Hshape :
            dict_keys (st_target (step s off st i)) = dict_keys (st_target st) \/
            (~ In (length (st_tokens st)) (dict_keys (st_target st)) /\
             dict_keys (st_target (step s off st i))
             = dict_keys (st_target st) ++ [length (st_tokens st)])).
  { unfold step.
    destruct (branch s (st_tokens st) (st_start st) i) as [toks start].
    simpl. destruct (in_range i (fst off) (snd off)); [|now left].
    apply dict_set_keys_shape. }
  unfold keys_ascending.
  destruct Hshape as [-> | [Hnin ->]]; split; auto.
  - apply sorted_snoc; [exact Hs|].
    rewrite Forall_forall in *. intros x Hx.
    assert (x <> length (st_tokens st)) by (intros ->; exact (Hnin Hx)).
    specialize (Hb x Hx). lia.
  - apply Forall_app. split; [auto|]. constructor; [lia | constructor].
Qed.

Lemma run_keys_ascending (s : str) (off : Z * Z) (idx : list nat) (st : scan) :
  keys_ascending st -> keys_ascending (run s off idx st).
Proof.
  unfold run. revert st.
  induction idx as [|i idx IH]; simpl; intros st H; [assumption|].
  apply IH. now apply step_keys_ascending.
Qed.

Lemma tokenize_keys_sorted (s : str) (off : Z * Z) :
  NatSort.sort (snd (tokenize s off)) = snd (tokenize s off).
Proof.
  apply sort_ascending. unfold tokenize. simpl.
  apply run_keys_ascending. split; simpl; constructor.
Qed.

(** The keys of [target] come out of the tokenizer in ascending order, so
    the sort of [Instance.__init__] leaves them as they are: the target
    token indices of an instance are the keys in the order in which the
    scan recorded them. *)
Theorem target_sort_is_identity (row : list str) (is_test : bool)
        (inst : Instance) :
  Instance_init row is_test = Ok inst ->
  target inst = snd (tokenize (sentence inst) (offset inst)) /\
  StronglySorted lt (snd (tokenize (sentence inst) (offset inst))).
Proof.
  intros H. apply Instance_init_inv in H. destruct H as [_ [_ [Htgt _]]].
  rewrite Htgt, tokenize_keys_sorted. split; [reflexivity|].
  unfold tokenize. simpl.
  apply (@run_keys_ascending (sentence inst) (offset inst)).
  split; simpl; constructor.
Qed.

End SortedKeys.

(** ** Positions of a sentence *)

Lemma slice_upto (pre rest : str) (start : nat) :
  start <= length pre ->
  slice (pre ++ rest) start (length pre) = skipn start pre.
Proof.
  intros H. unfold slice. rewrite skipn_app.
  replace (start - length pre) with 0 by lia. simpl.
  rewrite firstn_app, length_skipn, Nat.sub_diag. simpl.
  rewrite app_nil_r. apply firstn_all2. rewrite length_skipn. lia.
Qed.

Lemma slice_upto_S (pre post : str) (c : N) (start : nat) :
  start <= length pre ->
  slice (pre ++ c :: post) start (S (length pre)) = skipn start pre ++ [c].
Proof.
  intros H. unfold slice. rewrite skipn_app.
  replace (start - length pre) with 0 by lia. simpl skipn.
  rewrite firstn_app, length_skipn.
  replace (S (length pre) - start - (length pre - start)) with 1 by lia.
  change (firstn 1 (c :: post)) with [c].
  f_equal. apply firstn_all2. rewrite length_skipn. lia.
Qed.

Lemma slice_same (s : str) (a : nat) : slice s a a = [].
Proof. unfold slice. rewrite Nat.sub_diag. reflexivity. Qed.

Lemma slice_to_end (s : str) (start : nat) :
  slice s start (length s) = slice_from s start.
Proof.
  unfold slice, slice_from. apply firstn_all2. rewrite length_skipn. lia.
Qed.

(** What the slices of the tokenizer are at a position [i] that holds the
    character [c]. *)
Lemma position_facts (s : str) (i : nat) (c : N) :
  nth_error s i = Some c ->
  i < length s /\
  char_at s i = [c] /\
  slice s i (i + 1) = [c] /\
  firstn (S i) s = firstn i s ++ [c] /\
  (forall start, start <= i ->
                 slice s start (S i) = slice s start i ++ [c]) /\
  (forall start, start <= i -> length (slice s start i) = i - start).
Proof.
  intros H. apply nth_error_split in H.
  destruct H as (pre & post & -> & <-).
  split; [rewrite length_app; simpl; lia|].
  split; [apply char_at_mid|]. split; [apply slice_one|]. split.
  - rewrite firstn_app. replace (S (length pre) - length pre) with 1 by lia.
    rewrite firstn_all2 by lia. rewrite firstn_app, Nat.sub_diag, firstn_all.
    simpl. rewrite app_nil_r. reflexivity.
  - split; intros start Hs.
    + rewrite slice_upto_S, slice_upto by exact Hs. reflexivity.
    + rewrite slice_upto by exact Hs. apply length_skipn.
Qed.

Section PlainSentences.

Context {B : Builtins}.

Lemma last_position (s : str) (i : nat) :
  (Z.of_nat i =? Z.of_nat (length s) - 1)%Z = (S i =? length s).
Proof.
  destruct (Nat.eqb_spec (S i) (length s)) as [H | H].
  - apply Z.eqb_eq. lia.
  - apply Z.eqb_neq. lia.
Qed.

(** On a character that is no delimiter and not the last one an iteration
    changes neither the tokens nor the pending start; on the last one it
    emits the pending text. *)
Lemma step_plain (s : str) (off : Z * Z) (st : scan) (i : nat) (c : N) :
  nth_error s i = Some c -> is_delimiter c = false ->
  st_start (step s off st i) = st_start st /\
  st_tokens (step s off st i)
  = if S i =? length s
    then st_tokens st ++ [lower (slice_from s (st_start st))]
    else st_tokens st.
Proof.
  intros Hc Hd. apply position_facts in Hc. destruct Hc as (_ & Hc & _).
  unfold is_delimiter in Hd.
  apply orb_false_iff in Hd. destruct Hd as [Hd Hq].
  apply orb_false_iff in Hd. destruct Hd as [Hd Hb].
  apply orb_false_iff in Hd. destruct Hd as [Hsp Hap].
  assert (He : str_in [c] endings = false).
  { destruct (str_in [c] endings) eqn:E; [|reflexivity].
    apply endings_breaking in E. congruence. }
  unfold step, branch. rewrite Hc, Hsp, Hap, Hb, Hq, He, last_position.
  simpl. rewrite andb_true_r. split; [reflexivity|].
  destruct (S i =? length s); reflexivity.
Qed.

Lemma run_plain (s : str) (off : Z * Z) (n : nat) :
  forallb (fun c => negb (is_delimiter c)) s = true ->
  n < length s ->
  st_tokens (run s off (seq 0 n) scan_init) = [] /\
  st_start (run s off (seq 0 n) scan_init) = 0.
Proof.
  intros Hs. induction n as [|n IH]; intros Hn; [split; reflexivity|].
  rewrite seq_S. unfold run. rewrite fold_left_app. simpl.
  fold (run s off (seq 0 n) scan_init).
  destruct IH as [Ht Hst]; [lia|].
  destruct (nth_error s n) as [c|] eqn:Hc;
    [|apply nth_error_None in Hc; lia].
  assert (Hd : is_delimiter c = false).
  { rewrite forallb_forall in Hs. apply nth_error_In in Hc.
    apply Hs in Hc. now apply negb_true_iff in Hc. }
  destruct (step_plain s off (run s off (seq 0 n) scan_init) n Hc Hd)
    as [Hs' Ht'].
  rewrite Hs', Ht', Hst, Ht.
  replace (S n =? length s) with false
    by (symmetry; apply Nat.eqb_neq; lia).
  split; reflexivity.
Qed.

(** A non-empty sentence without any delimiter is one token, the whole
    sentence in lower case. *)
Theorem plain_sentence_one_token (s : str) (off : Z * Z) :
  s <> [] ->
  forallb (fun c => negb (is_delimiter c)) s = true ->
  fst (tokenize s off) = [lower s].
Proof.
  intros Hne Hs. unfold tokenize. simpl.
  destruct (length s) as [|n] eqn:Hn;
    [apply length_zero_iff_nil in Hn; contradiction|].
  rewrite seq_S. unfold run. rewrite fold_left_app. simpl.
  fold (run s off (seq 0 n) scan_init).
  destruct (@run_plain s off n Hs) as [Ht Hst]; [lia|].
  destruct (nth_error s n) as [c|] eqn:Hc;
    [|apply nth_error_None in Hc; lia].
  assert (Hd : is_delimiter c = false).
  { rewrite forallb_forall in Hs. apply nth_error_In in Hc.
    apply Hs in Hc. now apply negb_true_iff in Hc. }
  destruct (step_plain s off (run s off (seq 0 n) scan_init) n Hc Hd)
    as [_ Ht'].
  rewrite Ht', Ht, Hst, Hn, Nat.eqb_refl. reflexivity.
Qed.

End PlainSentences.

Lemma plain_sentence_one_token_witness :
  fst (@tokenize Scenario.builtins (lit "Toy") (0, 3)%Z) = [lit "toy"].
Proof.
  apply (@plain_sentence_one_token Scenario.builtins (lit "Toy") (0, 3)%Z).
  - discriminate.
  - vm_compute. reflexivity.
Defined.


(** ** The tokens spell the sentence *)

Lemma nospace_snoc (l : str) (c : N) :
  nospace (l ++ [c]) = nospace l ++ (if N.eqb c 32 then [] else [c]).
Proof.
  unfold nospace. rewrite filter_app. simpl.
  destruct (N.eqb c 32); reflexivity.
Qed.

Lemma space_eqb (c : N) : str_eqb [c] (lit " ") = N.eqb c 32.
Proof. change (lit " ") with [32%N]. simpl. apply andb_true_r. Qed.

Lemma apostrophe_eqb (c : N) : str_eqb [c] [39%N] = N.eqb c 39.
Proof. simpl. apply andb_true_r. Qed.

Lemma quotes_cases (c : N) :
  str_in [c] quotes = true -> c = 34%N \/ c = 8220%N.
Proof.
  unfold str_in, quotes, ldquo. simpl. rewrite !andb_true_r, orb_false_r.
  intros H. apply orb_true_iff in H.
  destruct H as [H | H]; apply N.eqb_eq in H; auto.
Qed.

Section Spelling.

Context {B : Builtins}.

Ltac spell :=
  rewrite ?concat_app; simpl; rewrite ?app_nil_r, <- ?app_assoc; simpl;
  reflexivity.

Lemma branch_pieces (s : str) (toks : list str) (start i : nat) (c : N) :
  nth_error s i = Some c -> c <> 8220%N ->
  pieces_upto s i toks start ->
  pieces_upto s (S i) (fst (branch s toks start i))
              (snd (branch s toks start i)) /\
  (str_in [c] endings = true -> snd (branch s toks start i) = S i).
Proof.
  intros Hc Hq [Hle (pieces & Ht & Hp)].
  destruct (@position_facts s i c Hc) as (Hi & Hch & Hone & Hf & Hsl & Hlen).
  unfold pieces_upto, branch.
  rewrite Hch, space_eqb, apostrophe_eqb, Hone, Hf, nospace_snoc, <- Hp.
  replace (i + 1) with (S i) by lia.
  destruct (N.eqb_spec c 32) as [-> | Hsp].
  { split; [|intros He; vm_compute in He; discriminate He].
    simpl fst. simpl snd. split; [lia|]. rewrite slice_same.
    destruct (slice s start i) as [|x pending] eqn:Hpend.
    - exists pieces. split; [exact Ht|]. spell.
    - exists (pieces ++ [x :: pending]). split.
      + rewrite Ht, map_app. reflexivity.
      + spell. }
  destruct (N.eqb_spec c 39) as [-> | Hap].
  { split; [|intros He; vm_compute in He; discriminate He].
    simpl fst. simpl snd. split; [lia|].
    exists (pieces ++ [slice s start i]). split.
    - rewrite Ht, map_app. reflexivity.
    - rewrite (Hsl i (le_n i)), slice_same. spell. }
  destruct (str_in [c] breaking) eqn:Hb.
  { split; [|reflexivity].
    simpl fst. simpl snd. split; [lia|]. rewrite slice_same.
    destruct (0 <? Z.of_nat i - Z.of_nat start)%Z eqn:Hpos.
    - exists (pieces ++ [slice s start i] ++ [[c]]). split.
      + rewrite Ht, !map_app, app_assoc. reflexivity.
      + spell.
    - apply Z.ltb_ge in Hpos.
      assert (Hnil : slice s start i = []).
      { apply length_zero_iff_nil. rewrite (Hlen start Hle). lia. }
      exists (pieces ++ [[c]]). split.
      + rewrite Ht, map_app. reflexivity.
      + rewrite Hnil. spell. }
  assert (He : str_in [c] endings = false).
  { destruct (str_in [c] endings) eqn:E; [|reflexivity].
    apply endings_breaking in E. congruence. }
  split; [|intros He'; congruence].
  destruct (str_in [c] quotes) eqn:Hqu.
  { exfalso. apply quotes_cases in Hqu. destruct Hqu as [-> | ->].
    - vm_compute in Hb. discriminate Hb.
    - now apply Hq. }
  simpl fst. simpl snd. split; [lia|].
  exists pieces. split; [exact Ht|].
  rewrite (Hsl start Hle). spell.
Qed.

Lemma step_pieces (s : str) (off : Z * Z) (st : scan) (i : nat) (c : N) :
  nth_error s i = Some c -> c <> 8220%N ->
  pieces_upto s i (st_tokens st) (st_start st) ->
  (S i <> length s ->
   pieces_upto s (S i) (st_tokens (step s off st i))
               (st_start (step s off st i))) /\
  (S i = length s ->
   exists pieces, st_tokens (step s off st i) = map lower pieces /\
                  concat pieces = nospace s).
Proof.
  intros Hc Hq Hinv.
  destruct (@branch_pieces s (st_tokens st) (st_start st) i c Hc Hq Hinv)
    as [Hb Hend].
  destruct (@position_facts s i c Hc) as (_ & Hch & _).
  unfold step. rewrite Hch, last_position.
  destruct (branch s (st_tokens st) (st_start st) i) as [toks start].
  cbn [fst snd] in Hb, Hend. split; intros Hn.
  - replace (S i =? length s) with false
      by (symmetry; apply Nat.eqb_neq; exact Hn).
    cbn [andb st_tokens st_start]. exact Hb.
  - rewrite Hn, Nat.eqb_refl. cbn [andb st_tokens st_start].
    destruct Hb as [Hle (pieces & Ht & Hp)].
    rewrite Hn, firstn_all in Hp.
    destruct (str_in [c] endings) eqn:He; cbn [negb].
    + exists pieces. split; [exact Ht|].
      rewrite (Hend eq_refl), Hn, slice_same, app_nil_r in Hp. exact Hp.
    + exists (pieces ++ [slice s start (length s)]). split.
      * rewrite Ht, map_app, slice_to_end. reflexivity.
      * rewrite concat_app. simpl. rewrite app_nil_r. exact Hp.
Qed.

Lemma run_pieces (s : str) (off : Z * Z) (n : nat) :
  ~ In 8220%N s -> n < length s ->
  pieces_upto s n (st_tokens (run s off (seq 0 n) scan_init))
              (st_start (run s off (seq 0 n) scan_init)).
Proof.
  intros Hq. induction n as [|n IH]; intros Hn.
  - split; [apply le_n|]. exists []. split; reflexivity.
  - rewrite seq_S. unfold run. rewrite fold_left_app. simpl.
    fold (run s off (seq 0 n) scan_init).
    destruct (nth_error s n) as [c|] eqn:Hc;
      [|apply nth_error_None in Hc; lia].
    assert (Hne : c <> 8220%N)
      by (intros ->; apply Hq; eapply nth_error_In; exact Hc).
    destruct (@step_pieces s off (run s off (seq 0 n) scan_init) n c Hc Hne)
      as [Hstep _]; [apply IH; lia|].
    apply Hstep. lia.
Qed.

(** Unless the sentence holds a curly opening quote, its tokens are the
    lowercased pieces of a cutting of the sentence less its spaces: no
    other character is lost, added or moved. *)
Theorem tokens_spell_sentence (s : str) (off : Z * Z) :
  ~ In 8220%N s ->
  exists pieces, fst (tokenize s off) = map lower pieces /\
                 concat pieces = nospace s.
Proof.
  intros Hq. unfold tokenize. simpl.
  destruct (length s) as [|n] eqn:Hn.
  - apply length_zero_iff_nil in Hn. subst s. exists []. split; reflexivity.
  - rewrite seq_S. unfold run. rewrite fold_left_app. simpl.
    fold (run s off (seq 0 n) scan_init).
    destruct (nth_error s n) as [c|] eqn:Hc;
      [|apply nth_error_None in Hc; lia].
    assert (Hne : c <> 8220%N)
      by (intros ->; apply Hq; eapply nth_error_In; exact Hc).
    destruct (@step_pieces s off (run s off (seq 0 n) scan_init) n c Hc Hne)
      as [_ Hstep]; [apply run_pieces; [exact Hq | lia]|].
    apply Hstep. lia.
Qed.

End Spelling.

Lemma tokens_spell_sentence_witness :
  exists pieces,
    fst (@tokenize Scenario.builtins (lit "The cat's toy.") (4, 9)%Z)
    = map (@lower Scenario.builtins) pieces /\
    concat pieces = nospace (lit "The cat's toy.").
Proof.
  apply (@tokens_spell_sentence Scenario.builtins).
  vm_compute. intros H.
  repeat (destruct H as [H | H]; [discriminate H|]). exact H.
Defined.

(** ** The row parser beyond the claims *)

Section InstanceMore.

Context {B : Builtins}.

(** The label and the difficulty counts are both absent in test mode and
    both present otherwise. *)
Theorem labels_by_mode (row : list str) (is_test : bool) (inst : Instance) :
  Instance_init row is_test = Ok inst ->
  (label inst = None <-> is_test = true) /\
  (difficult inst = None <-> is_test = true).
Proof.
  intros H. apply Instance_init_inv in H. destruct H as [_ [_ [_ H]]].
  destruct is_test.
  - destruct H as [-> ->]. tauto.
  - destruct H as (f7 & f8 & f9 & f10 & d0 & d1 & l0 & l1 & H).
    decompose [and] H. split; split; congruence.
Qed.

(** A row that constructs in labeled mode constructs in test mode too, into
    the same instance less its label and difficulty counts. *)
Theorem test_mode_erases_labels (row : list str) (inst : Instance) :
  Instance_init row false = Ok inst ->
  Instance_init row true = Ok (erase_labels inst).
Proof.
  intros H. apply Instance_init_inv in H.
  destruct H as [(f2 & f3 & f5 & f6 & H0 & H1 & H2 & I2 & H3 & I3 & H4 & H5
                  & I5 & H6 & I6) [Htok [Htgt _]]].
  unfold Instance_init, getitem, to_int, of_option.
  rewrite H0, H1, H2, H3, H4, H5, H6. simpl.
  rewrite I2, I3, I5, I6. simpl.
  unfold erase_labels. rewrite Htok, Htgt.
  destruct (offset inst) as [a b]. destruct (annotators inst) as [n0 n1].
  simpl. reflexivity.
Qed.

(** A construction fails with [IndexError], on a row shorter than its mode
    needs, or with [ValueError], and in no other way. *)
Theorem Instance_init_errors (row : list str) (is_test : bool) (e : exn) :
  Instance_init row is_test = Raise e ->
  (e = IndexError /\ length row < expected_fields is_test) \/ e = ValueError.
Proof.
  intros H. unfold Instance_init, getitem, to_int, to_float, of_option in H.
  destruct is_test;
    destruct row as [|r0 [|r1 [|r2 [|r3 [|r4 [|r5 [|r6 [|r7 [|r8 [|r9 [|r10
                       rest]]]]]]]]]]];
    simpl in H;
    repeat first
      [ discriminate H
      | injection H as <-;
        first [ left; split; [reflexivity | simpl; lia] | right; reflexivity ]
      | match type of H with
        | context [int_of_str ?f] => destruct (int_of_str f); simpl in H
        | context [float_of_str ?f] => destruct (float_of_str f); simpl in H
        end ].
Qed.

(** The comprehension of [__str__] over the target indices never raises:
    it yields the token at each index. *)
Theorem target_tokens_defined (row : list str) (is_test : bool)
        (inst : Instance) :
  Instance_init row is_test = Ok inst ->
  exists toks,
    target_tokens inst = Ok toks /\
    Forall2 (fun k tok => nth_error (tokens inst) k = Some tok)
            (target inst) toks.
Proof.
  intros H. apply Instance_init_inv in H. destruct H as [_ [Htok [Htgt _]]].
  destruct (tokenize_keys (sentence inst) (offset inst)) as [Hnd Hb].
  destruct (sort_strict Hnd) as [_ Hin].
  assert (Hall : Forall (fun k => exists tok, getitem (tokens inst) k = Ok tok)
                        (target inst)).
  { rewrite Htgt, Htok. apply Forall_forall. intros k Hk.
    apply Hin in Hk. rewrite Forall_forall in Hb. specialize (Hb k Hk).
    unfold getitem.
    destruct (nth_error (fst (tokenize (sentence inst) (offset inst))) k)
      eqn:E; [eauto|].
    apply nth_error_None in E. lia. }
  destruct (@mapM_total _ _ _ _ Hall) as [toks Ht].
  exists toks. split; [exact Ht|].
  apply mapM_Ok in Ht.
  clear -Ht. induction Ht as [|k tok ks toks Hk _ IH]; constructor; auto.
  unfold getitem in Hk.
  destruct (nth_error (tokens inst) k); [congruence | discriminate Hk].
Qed.

(** An instance has a target token exactly when its span holds a character
    position of its sentence. *)
Theorem target_nonempty_iff (row : list str) (is_test : bool)
        (inst : Instance) :
  Instance_init row is_test = Ok inst ->
  (target inst <> [] <-> span_meets (sentence inst) (offset inst)).
Proof.
  intros H. apply Instance_init_inv in H. destruct H as [_ [_ [Htgt _]]].
  rewrite Htgt, tokenize_keys_sorted. apply tokenize_target_nonempty.
Qed.

End InstanceMore.

Lemma labels_by_mode_witness :
  (label Scenario.inst_cat = None <-> false = true) /\
  (difficult Scenario.inst_cat = None <-> false = true).
Proof.
  apply (@labels_by_mode Scenario.builtins Scenario.row_cat false).
  vm_compute. reflexivity.
Defined.

Lemma test_mode_erases_labels_witness :
  @Instance_init Scenario.builtins Scenario.row_cat true
  = Ok (erase_labels Scenario.inst_cat).
Proof.
  apply (@test_mode_erases_labels Scenario.builtins Scenario.row_cat).
  vm_compute. reflexivity.
Defined.

Lemma Instance_init_errors_witness :
  @Instance_init Scenario.builtins Scenario.row_short false = Raise IndexError
  /\ ((IndexError = IndexError /\
       length Scenario.row_short < @expected_fields false) \/
      IndexError = ValueError).
Proof.
  split; [vm_compute; reflexivity|].
  apply (@Instance_init_errors Scenario.builtins Scenario.row_short false).
  vm_compute. reflexivity.
Defined.

Lemma target_sort_is_identity_witness :
  target Scenario.inst_cat
  = snd (@tokenize Scenario.builtins (sentence Scenario.inst_cat)
                   (offset Scenario.inst_cat)) /\
  StronglySorted lt
    (snd (@tokenize Scenario.builtins (sentence Scenario.inst_cat)
                    (offset Scenario.inst_cat))).
Proof.
  apply (@target_sort_is_identity Scenario.builtins Scenario.row_cat false).
  vm_compute. reflexivity.
Defined.

Lemma target_tokens_defined_witness :
  exists toks,
    target_tokens Scenario.inst_cat = Ok toks /\
    Forall2 (fun k tok => nth_error (tokens Scenario.inst_cat) k = Some tok)
            (target Scenario.inst_cat) toks.
Proof.
  apply (@target_tokens_defined Scenario.builtins Scenario.row_cat false).
  vm_compute. reflexivity.
Defined.

Lemma target_nonempty_iff_witness :
  target Scenario.inst_cat <> [] <->
  span_meets (sentence Scenario.inst_cat) (offset Scenario.inst_cat).
Proof.
  apply (@target_nonempty_iff Scenario.builtins Scenario.row_cat false).
  vm_compute. reflexivity.
Defined.

(** ** The loader beyond the claims *)

Lemma forM_app (A S : Type) (f : S -> A -> result S) (l1 l2 : list A) (s : S) :
  forM f (l1 ++ l2) s = (s' <- forM f l1 s ;; forM f l2 s').
Proof.
  revert s; induction l1 as [|a l1 IH]; simpl; intros s; [reflexivity|].
  destruct (f s a) as [s'|e]; simpl; [apply IH | reflexivity].
Qed.

Section LoadMore.

Context {B : Builtins}.

(** A row with the fields of its mode, all numeric fields parsing, is
    constructed. *)
Lemma Instance_init_wellformed (row : list str) (is_test : bool) :
  ~ malformed is_test row -> exists inst, Instance_init row is_test = Ok inst.
Proof.
  intros Hgood.
  assert (Hlen : length row = expected_fields is_test).
  { destruct (Nat.eq_dec (length row) (expected_fields is_test)) as [E|E];
      [exact E|]. exfalso. apply Hgood. left. exact E. }
  assert (Hp : forall k f, In k (numeric_fields is_test) ->
                           nth_error row k = Some f -> parses k f = true).
  { intros k f Hk Hf. destruct (parses k f) eqn:E; [reflexivity|].
    exfalso. apply Hgood. right. exists k, f. auto. }
  clear Hgood.
  destruct is_test; simpl in Hlen.
  - destruct row as [|r0 [|r1 [|r2 [|r3 [|r4 [|r5 [|r6 [|]]]]]]]];
      try discriminate Hlen.
    pose proof (Hp 2 r2 (or_introl eq_refl) eq_refl) as P2.
    pose proof (Hp 3 r3 (or_intror (or_introl eq_refl)) eq_refl) as P3.
    pose proof (Hp 5 r5 (or_intror (or_intror (or_introl eq_refl))) eq_refl)
      as P5.
    pose proof (Hp 6 r6 (or_intror (or_intror (or_intror (or_introl eq_refl))))
                   eq_refl) as P6.
    unfold parses in P2, P3, P5, P6. simpl in P2, P3, P5, P6.
    unfold Instance_init, getitem, to_int, of_option. simpl.
    destruct (int_of_str r2); [|discriminate P2].
    destruct (int_of_str r3); [|discriminate P3].
    destruct (int_of_str r5); [|discriminate P5].
    destruct (int_of_str r6); [|discriminate P6].
    simpl. eexists. reflexivity.
  - destruct row as [|r0 [|r1 [|r2 [|r3 [|r4 [|r5 [|r6 [|r7 [|r8 [|r9 [|r10
                       [|]]]]]]]]]]]]; try discriminate Hlen.
    assert (Hk : forall k, In k [2; 3; 5; 6; 7; 8; 9; 10] ->
                 In k (numeric_fields false)) by (intros k Hk; exact Hk).
    pose proof (Hp 2 r2 (Hk 2 ltac:(simpl; tauto)) eq_refl) as P2.
    pose proof (Hp 3 r3 (Hk 3 ltac:(simpl; tauto)) eq_refl) as P3.
    pose proof (Hp 5 r5 (Hk 5 ltac:(simpl; tauto)) eq_refl) as P5.
    pose proof (Hp 6 r6 (Hk 6 ltac:(simpl; tauto)) eq_refl) as P6.
    pose proof (Hp 7 r7 (Hk 7 ltac:(simpl; tauto)) eq_refl) as P7.
    pose proof (Hp 8 r8 (Hk 8 ltac:(simpl; tauto)) eq_refl) as P8.
    pose proof (Hp 9 r9 (Hk 9 ltac:(simpl; tauto)) eq_refl) as P9.
    pose proof (Hp 10 r10 (Hk 10 ltac:(simpl; tauto)) eq_refl) as P10.
    unfold parses in P2, P3, P5, P6, P7, P8, P9, P10.
    simpl in P2, P3, P5, P6, P7, P8, P9, P10.
    unfold Instance_init, getitem, to_int, to_float, of_option. simpl.
    destruct (int_of_str r2); [|discriminate P2].
    destruct (int_of_str r3); [|discriminate P3].
    destruct (int_of_str r5); [|discriminate P5].
    destruct (int_of_str r6); [|discriminate P6].
    destruct (int_of_str r7); [|discriminate P7].
    destruct (int_of_str r8); [|discriminate P8].
    destruct (int_of_str r9); [|discriminate P9].
    destruct (float_of_str r10); [|discriminate P10].
    simpl. eexists. reflexivity.
Qed.

(** The lines of a successful load are all well formed. *)
Lemma Data_init_Ok_lines (fs : str -> option str) (ds : list str)
      (is_test : bool) (d : Data) (contents : list str) (line : list str) :
  Data_init fs ds is_test = Ok d -> readable fs ds contents ->
  In line (all_lines contents) -> ~ malformed is_test line.
Proof.
  intros Hd Hr Hin Hbad. apply Data_init_Ok in Hd.
  destruct Hd as (contents' & Hr' & Hlen & Hi & _).
  rewrite (readable_functional Hr' Hr) in *.
  destruct Hbad as [Hcount | (k & f & Hk & Hf & Hp)].
  - rewrite Forall_forall in Hlen. exact (Hcount (Hlen line Hin)).
  - assert (Hex : exists i, Instance_init line is_test = Ok i).
    { clear -Hi Hin. induction Hi as [|l i ls is0 Hli _ IH]; [destruct Hin|].
      destruct Hin as [<- | Hin]; [eauto | auto]. }
    destruct Hex as [i Hi'].
    assert (Ht : parses k f = true)
      by (eapply Instance_init_parses; eassumption).
    congruence.
Qed.

Lemma load_file_wellformed (fs : str -> option str) (is_test : bool)
      (acc : list Instance) (p c : str) :
  fs p = Some c ->
  (forall line, In line (read_lines c) -> ~ malformed is_test line) ->
  exists new, load_file fs is_test acc p = Ok (acc ++ new).
Proof.
  intros Hp Hgood. unfold load_file. rewrite Hp. simpl.
  destruct (check_lines_cases is_test (read_lines c))
    as [[-> _] | (l & _ & Hin & Hne)]; simpl.
  - rewrite forM_append.
    destruct (@mapM_total _ _ (fun l => Instance_init l is_test) (read_lines c))
      as [new ->].
    { apply Forall_forall. intros l Hl.
      apply Instance_init_wellformed, Hgood, Hl. }
    simpl. eauto.
  - exfalso. apply (Hgood l Hin). left. exact Hne.
Qed.

Lemma load_files_wellformed (fs : str -> option str) (is_test : bool)
      (ds contents : list str) (acc : list Instance) :
  readable fs ds contents ->
  (forall line, In line (all_lines contents) -> ~ malformed is_test line) ->
  exists insts, forM (load_file fs is_test) ds acc = Ok insts.
Proof.
  intros Hr. revert acc.
  induction Hr as [|p c ds contents Hp _ IH]; simpl; intros acc Hgood.
  - eauto.
  - destruct (@load_file_wellformed fs is_test acc p c Hp) as [new ->].
    { intros line Hl. apply Hgood. unfold all_lines. simpl.
      apply in_or_app. left. exact Hl. }
    simpl. apply IH. intros line Hl. apply Hgood. unfold all_lines. simpl.
    apply in_or_app. right. exact Hl.
Qed.

(** Once the files are loaded the label arrays can always be derived. *)
Lemma labels_defined (fs : str -> option str) (is_test : bool)
      (ds : list str) (insts : list Instance) :
  forM (load_file fs false) ds [] = Ok insts ->
  exists ys ps, mapM label_binary insts = Ok ys /\
                mapM label_prob insts = Ok ps.
Proof.
  intros Hl. apply load_files_Ok in Hl.
  destruct Hl as (contents & new & _ & _ & Hi & ->). simpl.
  assert (Hlab : Forall (fun i => label i <> None) new).
  { clear -Hi. induction Hi as [|l i ls is0 Hli _ IH]; constructor; auto.
    exact (Instance_init_label _ Hli). }
  destruct (@mapM_total _ _ label_binary new) as [ys Hy].
  { eapply Forall_impl; [|exact Hlab]. intros i Hi'. unfold label_binary.
    destruct (label i) eqn:E; [eexists; reflexivity | exfalso; exact (Hi' E)]. }
  destruct (@mapM_total _ _ label_prob new) as [ps Hp].
  { eapply Forall_impl; [|exact Hlab]. intros i Hi'. unfold label_prob.
    destruct (label i) eqn:E; [eexists; reflexivity | exfalso; exact (Hi' E)]. }
  eauto.
Qed.

(** When every listed file can be opened, a load succeeds exactly when no
    line of any file is malformed. *)
Theorem load_succeeds_iff (fs : str -> option str) (ds contents : list str)
        (is_test : bool) :
  readable fs ds contents ->
  ((exists d, Data_init fs ds is_test = Ok d) <->
   (forall line, In line (all_lines contents) -> ~ malformed is_test line)).
Proof.
  intros Hr. split.
  - intros [d Hd] line Hin. eapply Data_init_Ok_lines; eassumption.
  - intros Hgood. unfold Data_init, load_data. simpl.
    destruct (@load_files_wellformed fs is_test ds contents [] Hr Hgood)
      as [insts Hl].
    rewrite Hl. simpl. destruct is_test; simpl; [eauto|].
    destruct (@labels_defined fs false ds insts Hl) as (ys & ps & -> & ->).
    simpl. eauto.
Qed.

End LoadMore.

Lemma load_succeeds_iff_witness :
  (exists d, @Data_init Scenario.builtins Scenario.files
                        [lit "news.tsv"; lit "wiki.tsv"] false = Ok d) <->
  (forall line,
      In line (all_lines [Scenario.file_of [Scenario.row_cat];
                          Scenario.file_of [Scenario.row_dog]]) ->
      ~ @malformed Scenario.builtins false line).
Proof.
  apply (@load_succeeds_iff Scenario.builtins Scenario.files
           [lit "news.tsv"; lit "wiki.tsv"]).
  constructor; [reflexivity|]. constructor; [reflexivity | constructor].
Defined.

Section LoadCompose.

Context {B : Builtins}.

(** Loading a list of files is loading its first part and then calling
    [load_data] on the result with the rest: the instances accumulate and
    the label arrays are derived again from all of them. *)
Theorem load_data_accumulates (fs : str -> option str) (ds1 ds2 : list str)
        (is_test : bool) :
  Data_init fs (ds1 ++ ds2) is_test
  = (d <- Data_init fs ds1 is_test ;; load_data fs d ds2).
Proof.
  unfold Data_init, load_data. simpl. rewrite forM_app.
  destruct (forM (load_file fs is_test) ds1 []) as [insts|e] eqn:Hl; simpl;
    [|reflexivity].
  destruct is_test; simpl; [reflexivity|].
  destruct (@labels_defined _ fs false ds1 insts Hl) as (ys & ps & -> & ->).
  simpl. reflexivity.
Qed.

(** A listed file that cannot be opened makes the load fail. *)
Theorem load_missing_file (fs : str -> option str) (ds : list str)
        (is_test : bool) (p : str) :
  In p ds -> fs p = None ->
  exists e, Data_init fs ds is_test = Raise e.
Proof.
  intros Hin Hp. destruct (Data_init fs ds is_test) as [d|e] eqn:Hd; [|eauto].
  exfalso. apply Data_init_Ok in Hd. destruct Hd as (contents & Hr & _).
  clear -Hr Hin Hp. induction Hr as [|q c ds contents Hq _ IH]; simpl in Hin.
  - exact Hin.
  - destruct Hin as [-> | Hin]; [congruence | auto].
Qed.

Lemma load_files_not_found (fs : str -> option str) (is_test : bool)
      (ds : list str) (acc : list Instance) (p : str) :
  forM (load_file fs is_test) ds acc = Raise (FileNotFoundError p) ->
  In p ds /\ fs p = None.
Proof.
  revert acc. induction ds as [|q ds IH]; simpl; intros acc H;
    [discriminate H|].
  destruct (fs q) as [c|] eqn:Hq.
  - destruct (@load_file_cases _ fs is_test acc q c Hq)
      as [(new & Hl & _) | (e & Hl & He)]; rewrite Hl in H; simpl in H.
    + destruct (IH _ H) as [Hin Hp]. auto.
    + injection H as ->.
      destruct He as [He | [line He]]; discriminate He.
  - unfold load_file in H. rewrite Hq in H. simpl in H.
    injection H as <-. auto.
Qed.

(** A load that raises [FileNotFoundError] names a listed file that cannot
    be opened. *)
Theorem load_not_found_names_file (fs : str -> option str) (ds : list str)
        (is_test : bool) (p : str) :
  Data_init fs ds is_test = Raise (FileNotFoundError p) ->
  In p ds /\ fs p = None.
Proof.
  unfold Data_init, load_data. simpl. intros H.
  destruct (forM (load_file fs is_test) ds []) as [insts|e] eqn:Hl;
    simpl in H.
  - exfalso. destruct is_test; simpl in H; [discriminate H|].
    destruct (@labels_defined _ fs false ds insts Hl) as (ys & ps & Hy & Hp).
    rewrite Hy, Hp in H. discriminate H.
  - injection H as ->. eapply load_files_not_found. exact Hl.
Qed.

Lemma check_first_miscounted (is_test : bool) (lines : list (list str))
      (l : list str) :
  first_miscounted is_test lines = Some l ->
  forM (fun (_ : unit) line => check_line is_test line) lines tt
  = Raise (AssertionError l).
Proof.
  induction lines as [|x lines IH]; simpl; intros H; [discriminate H|].
  unfold check_line, expected_fields in *.
  destruct is_test; simpl in *.
  - destruct (length x =? 7); simpl; [auto | congruence].
  - destruct (length x =? 11); simpl; [auto | congruence].
Qed.

(** The fields of a file are counted before any of its rows is parsed: when
    the first listed file has a row with a wrong number of fields, the load
    raises the assertion error of the first such row, whatever the rows
    before it hold. *)
Theorem load_counts_before_parsing (fs : str -> option str) (p c : str)
        (ds : list str) (is_test : bool) (l : list str) :
  fs p = Some c ->
  first_miscounted is_test (read_lines c) = Some l ->
  Data_init fs (p :: ds) is_test = Raise (AssertionError l).
Proof.
  intros Hp Hl. unfold Data_init, load_data. simpl.
  unfold load_file. rewrite Hp. simpl.
  rewrite (check_first_miscounted _ _ Hl). reflexivity.
Qed.

(** In test mode the label arrays stay empty and no instance has a label or
    difficulty counts. *)
Theorem test_mode_has_no_labels (fs : str -> option str) (ds : list str)
        (d : Data) :
  Data_init fs ds true = Ok d ->
  y d = [] /\ y_prob d = [] /\
  Forall (fun i => label i = None /\ difficult i = None) (instances d).
Proof.
  intros H. apply Data_init_Ok in H.
  destruct H as (contents & _ & _ & Hi & _ & Hy & Hp).
  split; [exact Hy|]. split; [exact Hp|].
  clear -Hi. induction Hi as [|l i ls is0 Hli _ IH]; constructor; auto.
  apply Instance_init_inv in Hli. destruct Hli as [_ [_ [_ H]]]. exact H.
Qed.

(** An empty line in a listed file makes the load fail, in either mode. *)
Theorem load_rejects_blank_line (fs : str -> option str) (ds : list str)
        (is_test : bool) (p c : str) :
  In p ds -> fs p = Some c -> In [] (splitlines c) ->
  exists e, Data_init fs ds is_test = Raise e.
Proof.
  intros Hin Hp Hblank.
  destruct (Data_init fs ds is_test) as [d|e] eqn:Hd; [|eauto].
  exfalso. pose proof Hd as Hd'. apply Data_init_Ok in Hd'.
  destruct Hd' as (contents & Hr & _).
  apply (@Data_init_Ok_lines _ fs ds is_test d contents [[]] Hd Hr).
  - unfold all_lines. apply in_concat. exists (read_lines c). split.
    + apply in_map. eapply readable_In; eassumption.
    + unfold read_lines. change [[]] with (split 9 []).
      apply in_map. exact Hblank.
  - left. destruct is_test; simpl; discriminate.
Qed.

End LoadCompose.

Lemma load_missing_file_witness :
  exists e,
    @Data_init Scenario.builtins Scenario.files
               [lit "news.tsv"; lit "gone.tsv"] false = Raise e.
Proof.
  apply (@load_missing_file Scenario.builtins Scenario.files
           [lit "news.tsv"; lit "gone.tsv"] false (lit "gone.tsv")).
  - right. left. reflexivity.
  - reflexivity.
Defined.

Lemma load_not_found_names_file_witness :
  In (lit "gone.tsv") [lit "news.tsv"; lit "gone.tsv"] /\
  Scenario.files (lit "gone.tsv") = None.
Proof.
  apply (@load_not_found_names_file Scenario.builtins Scenario.files
           [lit "news.tsv"; lit "gone.tsv"] false (lit "gone.tsv")).
  vm_compute. reflexivity.
Defined.

(** The first row of the file has eleven fields and a bad number, the second
    has ten fields: the load reports the second. *)
Lemma load_counts_before_parsing_witness :
  @Data_init Scenario.builtins More.files
             [lit "mixed.tsv"; lit "news.tsv"] false
  = Raise (AssertionError Scenario.row_short).
Proof.
  apply (@load_counts_before_parsing Scenario.builtins More.files
           (lit "mixed.tsv")
           (Scenario.file_of [More.row_bad_number; Scenario.row_short])).
  - reflexivity.
  - vm_compute. reflexivity.
Defined.

Lemma test_mode_has_no_labels_witness :
  exists d,
    @Data_init Scenario.builtins More.files [lit "test.tsv"] true = Ok d /\
    length (instances d) = 1 /\
    y d = [] /\ y_prob d = [] /\
    Forall (fun i => label i = None /\ difficult i = None) (instances d).
Proof.
  eexists. split; [vm_compute; reflexivity|]. split; [reflexivity|].
  apply (@test_mode_has_no_labels Scenario.builtins More.files
           [lit "test.tsv"]).
  vm_compute. reflexivity.
Defined.

Lemma load_rejects_blank_line_witness :
  exists e,
    @Data_init Scenario.builtins More.files [lit "blank.tsv"] false = Raise e.
Proof.
  apply (@load_rejects_blank_line Scenario.builtins More.files
           [lit "blank.tsv"] false (lit "blank.tsv")
           (Scenario.file_of [Scenario.row_cat; []; Scenario.row_dog])).
  - left. reflexivity.
  - reflexivity.
  - vm_compute. right. left. reflexivity.
Defined.

(** ** The statistics *)

Lemma str_eqb_refl (a : str) : str_eqb a a = true.
Proof.
  induction a as [|x a IH]; simpl; [reflexivity|].
  rewrite N.eqb_refl. exact IH.
Qed.

Lemma str_in_iff (x : str) (l : list str) : str_in x l = true <-> In x l.
Proof.
  split; [apply str_in_In|]. intros H. unfold str_in.
  apply existsb_exists. exists x. split; [exact H | apply str_eqb_refl].
Qed.

Lemma distinct_spec (l : list str) :
  NoDup (distinct l) /\ (forall x, In x (distinct l) <-> In x l) /\
  length (distinct l) <= length l.
Proof.
  induction l as [|a l (Hnd & Hin & Hlen)]; simpl.
  - split; [constructor|]. split; [tauto | lia].
  - destruct (str_in a l) eqn:E.
    + apply str_in_iff in E. split; [exact Hnd|]. split; [|lia].
      intros x. rewrite Hin. split; [auto|]. intros [<- | H]; auto.
    + split.
      * constructor; [|exact Hnd]. intros H. apply Hin, str_in_iff in H.
        congruence.
      * split; [|simpl; lia]. intros x. simpl. rewrite Hin. tauto.
Qed.

(** [unique_insts] and [unique_targets] are the numbers of distinct HIT ids
    and of distinct target phrases among the instances; neither exceeds the
    number of instances, and [unique_insts] is zero only for an empty
    dataset. *)
Theorem statistics_counts (B : Builtins) (self : Data) :
  (exists ids,
     NoDup ids /\
     (forall x, In x ids <-> exists i, In i (instances self) /\ hit_id i = x)
     /\ unique_insts (statistics self) = length ids) /\
  (exists phrases,
     NoDup phrases /\
     (forall x, In x phrases
                <-> exists i, In i (instances self) /\ target_chars i = x)
     /\ unique_targets (statistics self) = length phrases) /\
  unique_insts (statistics self) <= n_instances (statistics self) /\
  unique_targets (statistics self) <= n_instances (statistics self) /\
  (unique_insts (statistics self) = 0 <-> n_instances (statistics self) = 0).
Proof.
  unfold statistics, set_len. simpl.
  destruct (distinct_spec (map hit_id (instances self))) as (N1 & I1 & L1).
  destruct (distinct_spec (map target_chars (instances self)))
    as (N2 & I2 & L2).
  rewrite length_map in L1, L2.
  split; [|split; [|split; [exact L1 | split; [exact L2|]]]].
  - exists (distinct (map hit_id (instances self))).
    split; [exact N1|]. split; [|reflexivity].
    intros x. rewrite I1, in_map_iff. split; intros [i [H1 H2]]; eauto.
  - exists (distinct (map target_chars (instances self))).
    split; [exact N2|]. split; [|reflexivity].
    intros x. rewrite I2, in_map_iff. split; intros [i [H1 H2]]; eauto.
  - split; intros H.
    + destruct (instances self) as [|i l]; [reflexivity|]. exfalso.
      apply length_zero_iff_nil in H.
      assert (Hin : In (hit_id i) (distinct (map hit_id (i :: l))))
        by (apply I1; left; reflexivity).
      rewrite H in Hin. exact Hin.
    + apply length_zero_iff_nil in H. rewrite H. reflexivity.
Qed.
